(** * PurBeurre: the persistence layer of [Model/Manager/entity_manager.py]

    A shallow embedding of [EntityManager]: the entity factory
    ([create_instance]), the statement builder ([create_query_insert_row]),
    the batch executor ([flatten_list], [insert_all]) and the row reader
    ([select_row]), followed by the properties established about them. *)

From Stdlib Require Import String Ascii List ZArith Lia Bool Arith DecimalString.
Import ListNotations.
Local Open Scope string_scope.

Set Implicit Arguments.
Set Warnings "-register-all".

(** ** Python built-ins used by the manager

    A Python [str] is taken as a sequence of code points below 256, so a
    character is an [ascii] and a string a [string]. *)

Module Py.

Definition code (c : ascii) : N := N_of_ascii c.

Definition quote : ascii := "'"%char.
Definition dquote : ascii := ascii_of_nat 34.
Definition backslash : ascii := ascii_of_nat 92.

(** [str.isspace] on one character. *)
Definition isspace (c : ascii) : bool :=
  let n := code c in
  ((9 <=? n) && (n <=? 13) || (28 <=? n) && (n <=? 32)
   || (n =? 133) || (n =? 160))%N.

Fixpoint lstrip (s : string) : string :=
  match s with
  | EmptyString => EmptyString
  | String c r => if isspace c then lstrip r else s
  end.

Fixpoint rstrip (s : string) : string :=
  match s with
  | EmptyString => EmptyString
  | String c r =>
      match rstrip r with
      | EmptyString => if isspace c then EmptyString else String c EmptyString
      | r' => String c r'
      end
  end.

(** [s.strip()] *)
Definition strip (s : string) : string := rstrip (lstrip s).

(** [s.split(sep)] for a separator of one character: never an empty list. *)
Fixpoint split (sep : ascii) (s : string) : list string :=
  match s with
  | EmptyString => [EmptyString]
  | String c r =>
      if Ascii.eqb c sep then EmptyString :: split sep r
      else match split sep r with
           | [] => [String c EmptyString]
           | t :: ts => String c t :: ts
           end
  end.

(** [c in s] for a character [c]. *)
Fixpoint contains (c : ascii) (s : string) : bool :=
  match s with
  | EmptyString => false
  | String d r => Ascii.eqb d c || contains c r
  end.

(** [s.replace(c, empty)] for a character [c]. *)
Fixpoint remove (c : ascii) (s : string) : string :=
  match s with
  | EmptyString => EmptyString
  | String d r => if Ascii.eqb d c then remove c r else String d (remove c r)
  end.

(** [sep.join(l)] *)
Fixpoint join (sep : string) (l : list string) : string :=
  match l with
  | [] => EmptyString
  | [x] => x
  | x :: r => x ++ sep ++ join sep r
  end.

(** [str(z)] for an integer. *)
Definition str_int (z : Z) : string := NilZero.string_of_int (Z.to_int z).

Definition hex_digit (n : N) : ascii :=
  if (n <? 10)%N then ascii_of_N (48 + n) else ascii_of_N (87 + n).

Definition printable (c : ascii) : bool :=
  let n := code c in
  ((32 <=? n) && (n <? 127) || (161 <=? n) && negb (n =? 173))%N.

Definition repr_char (q c : ascii) : string :=
  if Ascii.eqb c q || Ascii.eqb c backslash then String backslash (String c EmptyString)
  else if (code c =? 9)%N then String backslash "t"
  else if (code c =? 10)%N then String backslash "n"
  else if (code c =? 13)%N then String backslash "r"
  else if printable c then String c EmptyString
  else String backslash
         (String "x" (String (hex_digit (code c / 16))
                        (String (hex_digit (code c mod 16)) EmptyString))).

Fixpoint repr_body (q : ascii) (s : string) : string :=
  match s with
  | EmptyString => EmptyString
  | String c r => repr_char q c ++ repr_body q r
  end.

(** [repr(s)] for a string: single quotes unless the string holds a single
    quote and no double quote. *)
Definition repr_str (s : string) : string :=
  let q := if contains quote s && negb (contains dquote s) then dquote else quote in
  String q (repr_body q s ++ String q EmptyString).

(** [str(tuple(l))], given the [repr] of the elements. *)
Definition str_tuple (reprs : list string) : string :=
  match reprs with
  | [] => "()"
  | [x] => "(" ++ x ++ ",)"
  | _ => "(" ++ join ", " reprs ++ ")"
  end.

(** [a or b] on integers. *)
Definition or_int (a b : nat) : nat := if Nat.eqb a 0 then b else a.

End Py.

(** ** Exceptions and results *)

Inductive exn : Type :=
| KeyError
| AttributeError
| DbError (msg : string).

Inductive result (A : Type) : Type :=
| Ok (a : A)
| Raise (e : exn).

Arguments Ok {A} a.
Arguments Raise {A} e.

(** ** Entities *)

Inductive EntityClass : Type := Product | Category | Store.

Definition class_name (c : EntityClass) : string :=
  match c with
  | Product => "Product"
  | Category => "Category"
  | Store => "Store"
  end.

(** [c.__name__.lower()] *)
Definition lower_char (c : ascii) : ascii :=
  let n := Py.code c in
  if ((65 <=? n) && (n <=? 90))%N then ascii_of_N (n + 32) else c.

Fixpoint lower (s : string) : string :=
  match s with
  | EmptyString => EmptyString
  | String c r => String (lower_char c) (lower r)
  end.

(** An entity is an instance of one of the three classes; an attribute value
    is [None], a string, an integer or a list of instances. *)
Inductive entity : Type :=
| Entity (cls : EntityClass) (items : list (string * attr))
with attr : Type :=
| ANone
| AStr (s : string)
| AInt (z : Z)
| AList (children : list entity).

Definition dict : Type := list (string * attr).

Fixpoint dict_get (k : string) (d : dict) : option attr :=
  match d with
  | [] => None
  | (k', v) :: r => if String.eqb k' k then Some v else dict_get k r
  end.

(** [d[k] = v]: the value of an existing key is replaced in place, a new key
    goes to the end. *)
Fixpoint dict_set (k : string) (v : attr) (d : dict) : dict :=
  match d with
  | [] => [(k, v)]
  | (k', v') :: r =>
      if String.eqb k' k then (k', v) :: r else (k', v') :: dict_set k v r
  end.

(** [dict(pairs)] *)
Definition dict_of (pairs : list (string * attr)) : dict :=
  fold_left (fun d kv => dict_set (fst kv) (snd kv) d) pairs [].

(** Modelled from the spec: the classes [Product], [Category] and [Store] of
    [Model/Entity] are not among the sources.  The spec has them as plain data
    records: the constructor keeps the keyword arguments it is given,
    [get_items] hands them back as (key, value) pairs and [.name] reads the
    attribute called name.  Validation is the factory's work. *)
Definition new_instance (cls : EntityClass) (kwargs : dict) : entity :=
  Entity cls kwargs.

(** [e.__class__] *)
Definition get_class (e : entity) : EntityClass :=
  match e with Entity c _ => c end.

(** Modelled from the spec: [e.get_items()], the attributes as pairs. *)
Definition get_items (e : entity) : list (string * attr) :=
  match e with Entity _ items => items end.

(** Modelled from the spec: the read of an attribute, as in [e.name]. *)
Definition getattr (e : entity) (k : string) : option attr :=
  dict_get k (get_items e).

Definition table_name (e : entity) : string := lower (class_name (get_class e)).

(** ** The entity factory: [create_instance] *)

Definition class_register : list (string * EntityClass) :=
  [("product", Product); ("category", Category); ("store", Store)].

Fixpoint register_get (k : string) (r : list (string * EntityClass)) : option EntityClass :=
  match r with
  | [] => None
  | (k', c) :: r' => if String.eqb k' k then Some c else register_get k r'
  end.

(** The body of the [try]: build the instance from one token, raise
    [KeyError] when its name is empty or holds a quote. *)
Definition try_token (cls : EntityClass) (val : string) : result entity :=
  let instance := new_instance cls [("name", AStr (Py.strip val))] in
  match getattr instance "name" with
  | Some (AStr name) =>
      if String.eqb name EmptyString then Raise KeyError
      else if Py.contains Py.quote name then Raise KeyError
      else Ok instance
  | _ => Raise AttributeError
  end.

(** The loop over [value.split(',')]: [except KeyError: continue], [else:
    append]; another exception leaves the loop. *)
Fixpoint token_loop (cls : EntityClass) (tokens : list string)
    (instance_list : list entity) : result (list entity) :=
  match tokens with
  | [] => Ok instance_list
  | val :: rest =>
      match try_token cls val with
      | Ok instance => token_loop cls rest (instance_list ++ [instance])%list
      | Raise KeyError => token_loop cls rest instance_list
      | Raise e => Raise e
      end
  end.

(** The loop over [attributes.items()], updating [attributes] in place. *)
Fixpoint attribute_loop (items : list (string * attr)) (attributes : dict) : result dict :=
  match items with
  | [] => Ok attributes
  | (key, value) :: rest =>
      match register_get key class_register, value with
      | Some cls, AStr s =>
          match token_loop cls (Py.split ","%char s) [] with
          | Ok instance_list =>
              attribute_loop rest (dict_set key (AList instance_list) attributes)
          | Raise e => Raise e
          end
      | _, _ => attribute_loop rest attributes
      end
  end.

Definition create_instance (entity_kind : string) (attributes : dict) : result entity :=
  match attribute_loop attributes attributes with
  | Ok attributes' =>
      match register_get entity_kind class_register with
      | Some cls => Ok (new_instance cls attributes')
      | None => Raise KeyError
      end
  | Raise e => Raise e
  end.


(** ** The statement builder: [create_query_insert_row] *)

(** A value of a row: an attribute that is neither [None] nor a list. *)
Inductive scalar : Type :=
| SStr (s : string)
| SInt (z : Z).

(** [str(v)] and [repr(v)] *)
Definition str_scalar (v : scalar) : string :=
  match v with
  | SStr s => s
  | SInt z => Py.str_int z
  end.

Definition repr_scalar (v : scalar) : string :=
  match v with
  | SStr s => Py.repr_str s
  | SInt z => Py.str_int z
  end.

(** A Python list whose elements are strings or lists of the same kind. *)
Inductive nested (A : Type) : Type :=
| Atom (a : A)
| Nest (l : list (nested A)).

Arguments Atom {A} a.
Arguments Nest {A} l.

(** The formatting of the parameters (the [if] on the lengths). *)
Definition format_keys (row_keys : list string) (row_values : list scalar) : string :=
  if Nat.eqb (Py.or_int (length row_keys) (length row_values)) 1 then
    let single_row_key := "'" ++ nth 0 row_keys EmptyString ++ "'" in
    Py.remove Py.quote ("(" ++ single_row_key ++ ")")
  else Py.remove Py.quote (Py.str_tuple (map Py.repr_str row_keys)).

Definition format_values (row_keys : list string) (row_values : list scalar) : string :=
  if Nat.eqb (Py.or_int (length row_keys) (length row_values)) 1 then
    let single_row_value := "'" ++ str_scalar (nth 0 row_values (SStr EmptyString)) ++ "'" in
    "(" ++ single_row_value ++ ")"
  else Py.str_tuple (map repr_scalar row_values).

(** The formatted query of the entity's own row. *)
Definition query_head (table_name row_keys row_values : string) : string :=
  "INSERT INTO " ++ table_name ++ " "
  ++ "  " ++ row_keys ++ " "
  ++ "  VALUES " ++ row_values ++ " "
  ++ "ON DUPLICATE KEY UPDATE "
  ++ "  id_" ++ table_name ++ " = LAST_INSERT_ID(id_" ++ table_name ++ "); "
  ++ "SET @id_" ++ table_name ++ " = LAST_INSERT_ID() ".

(** The request for the table of associations. *)
Definition query_tail (table_name parent_name : string) : string :=
  "; "
  ++ "INSERT IGNORE INTO " ++ table_name ++ "_" ++ parent_name ++ " "
  ++ "  (id_" ++ table_name ++ ", id_" ++ parent_name ++ ") "
  ++ "  VALUES (@id_" ++ table_name ++ ", @id_" ++ parent_name ++ ") ".

Definition format_query (table_name : string) (row_keys : list string)
    (row_values : list scalar) (parent_name : option string) : string :=
  let query := query_head table_name (format_keys row_keys row_values)
                 (format_values row_keys row_values) in
  match parent_name with
  | Some p => query ++ query_tail table_name p
  | None => query
  end.

(** The inner loop [for child in attribute_value], given the recursive call. *)
Fixpoint each_child {A : Type} (recurse : entity -> list (nested A))
    (l : list entity) (children : list (nested A)) : list (nested A) :=
  match l with
  | [] => children
  | child :: r => each_child recurse r (children ++ [Nest (recurse child)])%list
  end.

(** The loop [for item in entity.get_items()]. *)
Fixpoint unpack {A : Type} (recurse : entity -> list (nested A))
    (items : list (string * attr)) (children : list (nested A))
    (row_keys : list string) (row_values : list scalar)
  : list (nested A) * list string * list scalar :=
  match items with
  | [] => (children, row_keys, row_values)
  | (attribute_key, attribute_value) :: rest =>
      match attribute_value with
      | ANone => unpack recurse rest children row_keys row_values
      | AList l => unpack recurse rest (each_child recurse l children) row_keys row_values
      | AStr s =>
          unpack recurse rest children (row_keys ++ [attribute_key])%list
            (row_values ++ [SStr s])%list
      | AInt z =>
          unpack recurse rest children (row_keys ++ [attribute_key])%list
            (row_values ++ [SInt z])%list
      end
  end.

Fixpoint create_query_insert_row (ent : entity) (parent : option entity)
  : list (nested string) :=
  match ent with
  | Entity cls items =>
      let '(children, row_keys, row_values) :=
        unpack (fun child => create_query_insert_row child (Some ent)) items [] [] [] in
      let query := format_query (table_name ent) row_keys row_values
                     (option_map table_name parent) in
      (children ++ [Atom query])%list
  end.

(** ** The batch executor: [flatten_list] and [insert_all] *)

Fixpoint flatten_nested {A : Type} (element : nested A) (atoms : list A) : list A :=
  match element with
  | Atom a => (atoms ++ [a])%list
  | Nest listing =>
      (fix loop (listing : list (nested A)) (atoms : list A) {struct listing} :=
         match listing with
         | [] => atoms
         | element :: rest => loop rest (flatten_nested element atoms)
         end) listing atoms
  end.

(** [flatten_list(listing, components)]: [atoms] is [components], or a new
    list when there is none; the recursive call appends to the same list. *)
Definition flatten_list {A : Type} (listing : list (nested A))
    (components : option (list A)) : list A :=
  let atoms := match components with None => [] | Some c => c end in
  fold_left (fun atoms element => flatten_nested element atoms) listing atoms.

Inductive payload : Type :=
| Single (instance : entity)
| Many (instances : list entity).

(** The list [queries] of [insert_all]: one nested list per instance. *)
Definition build_queries (p : payload) : list (nested string) :=
  match p with
  | Many instances =>
      fold_left (fun queries instance =>
                   (queries ++ [Nest (create_query_insert_row instance None)])%list)
        instances []
  | Single instance => ([] ++ [Nest (create_query_insert_row instance None)])%list
  end.

(** The list [request], flattened and then reversed. *)
Definition build_request (p : payload) : list string :=
  rev (flatten_list (build_queries p) None).

(** The [statement] sent to the cursor. *)
Definition build_statement (p : payload) : string :=
  Py.join "; " (build_request p).

(** What a call leaves behind: the connection, the lines printed and the
    value returned or the exception raised. *)
Record outcome (C A : Type) : Type := Outcome {
  connection : C;
  printed : list string;
  returned : result A
}.

Section Connection.

(** The connection of [DBManager] and its cursor, which are not part of the
    manager: running a multi-statement batch to its end either succeeds or
    raises [mysql.connector.Error] with a message; a query either raises or
    yields the records of [fetchall]. *)
Variable conn : Type.
Variable execute_multi : string -> conn -> conn * option string.
Variable execute_fetchall : string -> conn -> conn * (string + list (list attr)).

Definition error_message (e : string) : string :=
  "The error '" ++ e ++ "' occurred".

Definition insert_all (p : payload) (db : conn) : outcome conn unit :=
  let statement := build_statement p in
  match execute_multi statement db with
  | (db', None) => Outcome db' [] (Ok tt)
  | (db', Some e) => Outcome db' [error_message e] (Ok tt)
  end.

(** [select_row]: the clauses of the query. *)
Inductive columns : Type :=
| Text (s : string)
| Names (l : list string).

Record clauses : Type := Clauses {
  join : option (string * string);
  where_ : option (string * string * string);
  order : option string
}.

(** [[str(head) for head in selection]]: a string is walked character by
    character. *)
Fixpoint characters (s : string) : list string :=
  match s with
  | EmptyString => []
  | String c r => String c EmptyString :: characters r
  end.

Definition select_headers (selection : columns) : list string :=
  match selection with
  | Text s => characters s
  | Names l => l
  end.

Definition select_statement (table_anchor : string) (selection : columns)
    (distinct : bool) (claims : clauses) : string :=
  let claim_select := if distinct then "SELECT DISTINCT " else "SELECT " in
  let headers := select_headers selection in
  let columns := map (fun col => table_anchor ++ "." ++ col) headers in
  let selection := Py.join ", " columns in
  let claim_select := claim_select ++ selection ++ "  " in
  let claim := [claim_select] in
  let claim_from := "FROM " ++ table_anchor ++ " " in
  let claim := (claim ++ [claim_from])%list in
  let claim :=
    match join claims with
    | Some (table_adjunct, row_key) =>
        let claim_join :=
          "INNER JOIN " ++ table_adjunct ++ " "
          ++ "ON " ++ table_adjunct ++ "." ++ row_key ++ " "
          ++ "= " ++ table_anchor ++ "." ++ row_key ++ " " in
        (claim ++ [claim_join])%list
    | None => claim
    end in
  let claim :=
    match where_ claims with
    | Some (table_adjunct, row_key, row_value) =>
        let claim_where :=
          "WHERE " ++ table_adjunct ++ "." ++ row_key ++ " "
          ++ "= " ++ row_value ++ " " in
        (claim ++ [claim_where])%list
    | None => claim
    end in
  let claim :=
    match order claims with
    | Some o =>
        let claim_order := "ORDER BY " ++ o ++ " " in
        (claim ++ [claim_order])%list
    | None => claim
    end in
  let claim := (claim ++ [";"])%list in
  Py.join " " claim.

Definition select_row (table_anchor : string) (selection : columns)
    (distinct : bool) (claims : clauses) (db : conn)
  : outcome conn (option entity) :=
  let headers := select_headers selection in
  let statement := select_statement table_anchor selection distinct claims in
  match execute_fetchall statement db with
  | (db', inl e) => Outcome db' [error_message e] (Ok None)
  | (db', inr records) =>
      match records with
      | [] => Outcome db' [] (Ok None)
      | record :: _ =>
          let attrs := dict_of (combine headers record) in
          match create_instance table_anchor attrs with
          | Ok instance => Outcome db' [] (Ok (Some instance))
          | Raise e => Outcome db' [] (Raise e)
          end
      end
  end.

End Connection.

(** ** The batch as data

    A fragment is what one formatted query is made of: the table, the columns
    and values of the row, and the parent's table when there is one.
    [insert_plan] is [create_query_insert_row] with the fragment in place of
    its text. *)

Record fragment : Type := Fragment {
  f_table : string;
  f_keys : list string;
  f_values : list scalar;
  f_parent : option string
}.

Definition fragment_text (f : fragment) : string :=
  format_query (f_table f) (f_keys f) (f_values f) (f_parent f).

Fixpoint insert_plan (ent : entity) (parent : option entity) : list (nested fragment) :=
  match ent with
  | Entity cls items =>
      let '(children, row_keys, row_values) :=
        unpack (fun child => insert_plan child (Some ent)) items [] [] [] in
      (children
       ++ [Atom (Fragment (table_name ent) row_keys row_values
                   (option_map table_name parent))])%list
  end.

Definition plan_queries (p : payload) : list (nested fragment) :=
  match p with
  | Many instances =>
      fold_left (fun queries instance =>
                   (queries ++ [Nest (insert_plan instance None)])%list)
        instances []
  | Single instance => ([] ++ [Nest (insert_plan instance None)])%list
  end.

Definition instances_of (p : payload) : list entity :=
  match p with
  | Single instance => [instance]
  | Many instances => instances
  end.

Definition plan_request (p : payload) : list fragment :=
  rev (flatten_list (plan_queries p) None).

(** The session variables a fragment sets ([SET @id_<table>]) and the ones
    its association insert reads ([VALUES (@id_<table>, @id_<parent>)]). *)
Definition sets (f : fragment) : list string := [f_table f].

Definition refs (f : fragment) : list string :=
  match f_parent f with
  | Some p => [f_table f; p]
  | None => []
  end.

(** Every variable read by a fragment of [l] is set by that fragment, by an
    earlier one of [l], or beforehand ([ctx]). *)
Fixpoint ordered (ctx : list string) (l : list fragment) : Prop :=
  match l with
  | [] => True
  | f :: r =>
      (forall v, In v (refs f) -> In v (sets f) \/ In v ctx)
      /\ ordered (sets f ++ ctx)%list r
  end.

(** The attributes of an entity by what the builder does with them. *)
Definition children_of (items : list (string * attr)) : list entity :=
  flat_map (fun kv => match snd kv with AList l => l | _ => [] end) items.

Definition row_of (items : list (string * attr)) : list (string * scalar) :=
  flat_map (fun kv => match snd kv with
                      | AStr s => [(fst kv, SStr s)]
                      | AInt z => [(fst kv, SInt z)]
                      | _ => []
                      end) items.

Definition own_fragment (ent : entity) (parent : option entity) : fragment :=
  Fragment (table_name ent) (map fst (row_of (get_items ent)))
    (map snd (row_of (get_items ent))) (option_map table_name parent).

Definition own_query (ent : entity) (parent : option entity) : string :=
  fragment_text (own_fragment ent parent).

Fixpoint nested_map {A B : Type} (f : A -> B) (n : nested A) : nested B :=
  match n with
  | Atom a => Atom (f a)
  | Nest l => Nest (map (nested_map f) l)
  end.

(** The atoms of a nested list, left to right. *)
Fixpoint atoms_of {A : Type} (n : nested A) : list A :=
  match n with
  | Atom a => [a]
  | Nest l => flat_map atoms_of l
  end.

(** The children the factory is expected to build from a delimited string:
    split on commas, trim, keep the names that are neither empty nor hold a
    quote, one instance per name. *)
Definition valid_name (n : string) : bool :=
  negb (String.eqb n EmptyString) && negb (Py.contains Py.quote n).

Definition expected_children (cls : EntityClass) (s : string) : list entity :=
  map (fun n => Entity cls [("name", AStr n)])
    (filter valid_name (map Py.strip (Py.split ","%char s))).

Definition expand (kv : string * attr) : string * attr :=
  match register_get (fst kv) class_register, snd kv with
  | Some cls, AStr s => (fst kv, AList (expected_children cls s))
  | _, _ => kv
  end.

(** What one turn of the loop over the attributes does to the mapping. *)
Definition resolve (d : dict) (kv : string * attr) : dict :=
  match register_get (fst kv) class_register, snd kv with
  | Some cls, AStr s => dict_set (fst kv) (AList (expected_children cls s)) d
  | _, _ => d
  end.

(** A mapping has each key once, as a Python [dict] does. *)
Fixpoint distinct_keys (d : dict) : bool :=
  match d with
  | [] => true
  | (k, _) :: r => negb (existsb (String.eqb k) (map fst r)) && distinct_keys r
  end.

(** ** The store *)

(** Modelled from the spec: the store (the MySQL server and the schema of the
    tables) is not among the sources.  It is given the text of the batch and
    nothing else: it reads the text (words, literals and punctuation, then
    statements) and runs the statements it has read.  Per the spec the store
    refuses a text that is malformed, as one with a quote that is not
    escaped. *)
Module Sql.

Inductive token : Type :=
| TWord (w : string)
| TVar (v : string)
| TText (s : string)
| TNumber (z : Z)
| TOpen
| TClose
| TComma
| TSemicolon
| TEqual.

(** Modelled from the spec: the characters of a name: letters, digits, the
    underscore and the dollar. *)
Definition word_char (c : ascii) : bool :=
  let n := Py.code c in
  ((48 <=? n) && (n <=? 57) || (65 <=? n) && (n <=? 90)
   || (97 <=? n) && (n <=? 122) || (n =? 95) || (n =? 36))%N.

Fixpoint all_chars (f : ascii -> bool) (s : string) : bool :=
  match s with
  | EmptyString => true
  | String c r => f c && all_chars f r
  end.

Definition is_word (w : string) : bool :=
  match w with
  | EmptyString => false
  | String _ _ => all_chars word_char w
  end.

Definition number_of (w : string) : option Z :=
  option_map Z.of_int (NilZero.int_of_string w).

(** Modelled from the spec: a name of a column or of a table is a word that
    is not a number. *)
Definition column_name (k : string) : bool :=
  is_word k && match number_of k with Some _ => false | None => true end.

(** Modelled from the spec: a run of word characters is a number or a
    name. *)
Definition classify (w : string) : option token :=
  match number_of w with
  | Some z => Some (TNumber z)
  | None => if is_word w then Some (TWord w) else None
  end.

(** Modelled from the spec: where the reading of the characters stands:
    between tokens, in a word, in the name of a variable, in a literal opened by [q], after a backslash
    in a literal, or after a quote that closes the literal unless it is
    doubled. *)
Inductive lexing : Type :=
| Between
| InWord (w : string)
| InVar (v : string)
| InText (q : ascii) (content : string)
| Escaped (q : ascii) (content : string)
| Closing (q : ascii) (content : string)
| Failed.

Definition snoc (s : string) (c : ascii) : string := s ++ String c EmptyString.

(** Modelled from the spec: the character that a backslash and [c] stand
    for in a literal. *)
Definition escaped (c : ascii) : string :=
  let n := Py.code c in
  if (n =? 110)%N then String (ascii_of_nat 10) EmptyString
  else if (n =? 116)%N then String (ascii_of_nat 9) EmptyString
  else if (n =? 114)%N then String (ascii_of_nat 13) EmptyString
  else if (n =? 48)%N then String (ascii_of_nat 0) EmptyString
  else if (n =? 98)%N then String (ascii_of_nat 8) EmptyString
  else if (n =? 90)%N then String (ascii_of_nat 26) EmptyString
  else if (n =? 37)%N || (n =? 95)%N then String Py.backslash (String c EmptyString)
  else String c EmptyString.

Definition between_step (c : ascii) : lexing * list token :=
  let n := Py.code c in
  if Py.isspace c then (Between, [])
  else if (n =? 40)%N then (Between, [TOpen])
  else if (n =? 41)%N then (Between, [TClose])
  else if (n =? 44)%N then (Between, [TComma])
  else if (n =? 59)%N then (Between, [TSemicolon])
  else if (n =? 61)%N then (Between, [TEqual])
  else if (n =? 64)%N then (InVar EmptyString, [])
  else if Ascii.eqb c Py.quote || Ascii.eqb c Py.dquote then (InText c EmptyString, [])
  else if word_char c || (n =? 45)%N then (InWord (String c EmptyString), [])
  else (Failed, []).

Definition lex_step (st : lexing) (c : ascii) : lexing * list token :=
  match st with
  | Between => between_step c
  | InWord w =>
      if word_char c then (InWord (snoc w c), [])
      else match classify w with
           | Some t => let '(st', new) := between_step c in (st', t :: new)
           | None => (Failed, [])
           end
  | InVar v =>
      if word_char c then (InVar (snoc v c), [])
      else if is_word v then let '(st', new) := between_step c in (st', TVar v :: new)
      else (Failed, [])
  | InText q content =>
      if Ascii.eqb c Py.backslash then (Escaped q content, [])
      else if Ascii.eqb c q then (Closing q content, [])
      else (InText q (snoc content c), [])
  | Escaped q content => (InText q (content ++ escaped c), [])
  | Closing q content =>
      if Ascii.eqb c q then (InText q (snoc content c), [])
      else let '(st', new) := between_step c in (st', TText content :: new)
  | Failed => (Failed, [])
  end.

Fixpoint lex_run (s : string) (st : lexing) (out : list token) : lexing * list token :=
  match s with
  | EmptyString => (st, out)
  | String c r =>
      let '(st', new) := lex_step st c in lex_run r st' (out ++ new)%list
  end.

Definition finish (st : lexing) : option (list token) :=
  match st with
  | Between => Some []
  | InWord w => option_map (fun t => [t]) (classify w)
  | InVar v => if is_word v then Some [TVar v] else None
  | Closing q content => Some [TText content]
  | _ => None
  end.

Definition lex (s : string) : option (list token) :=
  let '(st, out) := lex_run s Between [] in
  option_map (fun new => (out ++ new)%list) (finish st).

(** Modelled from the spec: the statements the store knows: the insert of a
    row that on a duplicate key recovers the identifier, the capture of the
    last identifier in a variable, and the insert-or-ignore of a pair of
    variables. *)
Inductive statement : Type :=
| Upsert (table : string) (columns : list string) (values : list scalar)
    (key : string)
| SetVar (var : string)
| InsertIgnore (table : string) (column1 column2 : string) (var1 var2 : string).

Definition keyword (k : string) (l : list token) : option (list token) :=
  match l with
  | TWord w :: r => if String.eqb w k then Some r else None
  | _ => None
  end.

Fixpoint names (l : list token) : option (list string * list token) :=
  match l with
  | TWord w :: TClose :: r => Some ([w], r)
  | TWord w :: TComma :: r =>
      match names r with
      | Some (ws, r') => Some (w :: ws, r')
      | None => None
      end
  | _ => None
  end.

Definition name_list (l : list token) : option (list string * list token) :=
  match l with
  | TOpen :: TClose :: r => Some ([], r)
  | TOpen :: r => names r
  | _ => None
  end.

Definition literal (t : token) : option scalar :=
  match t with
  | TText s => Some (SStr s)
  | TNumber z => Some (SInt z)
  | _ => None
  end.

Fixpoint literals (l : list token) : option (list scalar * list token) :=
  match l with
  | t :: TClose :: r =>
      match literal t with
      | Some v => Some ([v], r)
      | None => None
      end
  | t :: TComma :: r =>
      match literal t, literals r with
      | Some v, Some (vs, r') => Some (v :: vs, r')
      | _, _ => None
      end
  | _ => None
  end.

Definition literal_list (l : list token) : option (list scalar * list token) :=
  match l with
  | TOpen :: TClose :: r => Some ([], r)
  | TOpen :: r => literals r
  | _ => None
  end.

(** After [INSERT INTO]: the table, the columns, [VALUES], the values, and
    [ON DUPLICATE KEY UPDATE k = LAST_INSERT_ID(k)]. *)
Definition parse_upsert (l : list token) : option (statement * list token) :=
  match l with
  | TWord table :: r =>
      match name_list r with
      | Some (columns, r1) =>
          match keyword "VALUES" r1 with
          | Some r2 =>
              match literal_list r2 with
              | Some (values, r3) =>
                  match r3 with
                  | TWord on :: TWord duplicate :: TWord key_ :: TWord update
                    :: TWord k :: TEqual :: TWord f :: TOpen :: TWord k'
                    :: TClose :: rest =>
                      if String.eqb on "ON" && String.eqb duplicate "DUPLICATE"
                         && String.eqb key_ "KEY" && String.eqb update "UPDATE"
                         && String.eqb f "LAST_INSERT_ID" && String.eqb k k'
                      then Some (Upsert table columns values k, rest)
                      else None
                  | _ => None
                  end
              | None => None
              end
          | None => None
          end
      | None => None
      end
  | _ => None
  end.

(** After [INSERT IGNORE INTO]: the table, two columns, [VALUES] and two
    variables. *)
Definition parse_ignore (l : list token) : option (statement * list token) :=
  match l with
  | TWord table :: TOpen :: TWord c1 :: TComma :: TWord c2 :: TClose
    :: TWord values :: TOpen :: TVar v1 :: TComma :: TVar v2 :: TClose :: rest =>
      if String.eqb values "VALUES"
      then Some (InsertIgnore table c1 c2 v1 v2, rest)
      else None
  | _ => None
  end.

(** After [SET]: [@v = LAST_INSERT_ID()]. *)
Definition parse_set (l : list token) : option (statement * list token) :=
  match l with
  | TVar v :: TEqual :: TWord f :: TOpen :: TClose :: rest =>
      if String.eqb f "LAST_INSERT_ID" then Some (SetVar v, rest) else None
  | _ => None
  end.

Definition parse_statement (l : list token) : option (statement * list token) :=
  match l with
  | TWord w :: r =>
      if String.eqb w "SET" then parse_set r
      else if String.eqb w "INSERT" then
        match r with
        | TWord w' :: r' =>
            if String.eqb w' "INTO" then parse_upsert r'
            else if String.eqb w' "IGNORE" then
              match keyword "INTO" r' with
              | Some r'' => parse_ignore r''
              | None => None
              end
            else None
        | _ => None
        end
      else None
  | _ => None
  end.

(** Modelled from the spec: statements separated by semicolons. *)
Fixpoint parse_batch (fuel : nat) (l : list token) : option (list statement) :=
  match fuel with
  | 0 => None
  | S fuel' =>
      match parse_statement l with
      | Some (s, []) => Some [s]
      | Some (s, TSemicolon :: r) =>
          match parse_batch fuel' r with
          | Some ss => Some (s :: ss)
          | None => None
          end
      | _ => None
      end
  end.

(** Modelled from the spec: the statements of a text, when the text can be
    read. *)
Definition read (text : string) : option (list statement) :=
  match lex text with
  | Some [] => Some []
  | Some l => parse_batch (length l) l
  | None => None
  end.

End Sql.

(** Modelled from the spec: the tables of the store.  Each entity table has
    a unique key on the name and an identifier for each row; an association
    table holds pairs of identifiers.  A session holds the last identifier
    inserted or recovered and the variables [@id_<table>]. *)
Record row : Type := Row {
  row_table : string;
  row_id : nat;
  row_name : scalar;
  row_cells : list (string * scalar)
}.

Record link : Type := Link {
  link_table : string;
  link_child : nat;
  link_parent : nat
}.

Record store : Type := MkStore {
  rows : list row;
  links : list link;
  next_id : nat;
  last_id : nat;
  session : list (string * nat)
}.

Definition scalar_eqb (a b : scalar) : bool :=
  match a, b with
  | SStr x, SStr y => String.eqb x y
  | SInt x, SInt y => Z.eqb x y
  | _, _ => false
  end.

Definition link_eqb (a b : link) : bool :=
  String.eqb (link_table a) (link_table b)
  && Nat.eqb (link_child a) (link_child b)
  && Nat.eqb (link_parent a) (link_parent b).

Fixpoint find_row (t : string) (n : scalar) (l : list row) : option nat :=
  match l with
  | [] => None
  | r :: l' =>
      if String.eqb (row_table r) t && scalar_eqb (row_name r) n
      then Some (row_id r) else find_row t n l'
  end.

Fixpoint var_get (t : string) (vars : list (string * nat)) : option nat :=
  match vars with
  | [] => None
  | (t', i) :: r => if String.eqb t' t then Some i else var_get t r
  end.

Fixpoint cell_get (k : string) (cells : list (string * scalar)) : option scalar :=
  match cells with
  | [] => None
  | (k', v) :: r => if String.eqb k' k then Some v else cell_get k r
  end.

Definition fragment_cells (f : fragment) : list (string * scalar) :=
  combine (f_keys f) (f_values f).

Definition fragment_name (f : fragment) : option scalar :=
  cell_get "name" (fragment_cells f).

(** Modelled from the spec: the insert of a row with [ON DUPLICATE KEY
    UPDATE id = LAST_INSERT_ID(id)]: on a duplicate name the row is kept, and
    in both cases the identifier of the row becomes the last identifier. *)
Definition upsert (t : string) (n : scalar) (cells : list (string * scalar))
    (db : store) : store :=
  match find_row t n (rows db) with
  | Some i => MkStore (rows db) (links db) (next_id db) i (session db)
  | None =>
      MkStore (rows db ++ [Row t (next_id db) n cells])%list (links db)
        (S (next_id db)) (next_id db) (session db)
  end.

(** Modelled from the spec: [SET @v = LAST_INSERT_ID()]. *)
Definition set_var (v : string) (db : store) : store :=
  MkStore (rows db) (links db) (next_id db) (last_id db)
    ((v, last_id db) :: session db).

(** Modelled from the spec: the insert-or-ignore of a pair of identifiers
    into a table of associations. *)
Definition insert_ignore (k : link) (db : store) : store :=
  if existsb (link_eqb k) (links db) then db
  else MkStore (rows db) (links db ++ [k])%list (next_id db) (last_id db)
         (session db).

(** Modelled from the spec: one statement.  The store refuses an insert
    whose row has no name (the name is required), an update of a column that
    is not the identifier of the table, and an association insert that reads
    a variable never set; a refusal leaves the store as it is and comes with
    a message. *)
Definition run_statement (s : Sql.statement) (db : store) : store * option string :=
  match s with
  | Sql.Upsert t columns values key =>
      if String.eqb key ("id_" ++ t) then
        match cell_get "name" (combine columns values) with
        | Some n => (upsert t n (combine columns values) db, None)
        | None => (db, Some "Field 'name' doesn't have a default value")
        end
      else (db, Some "Unknown column")
  | Sql.SetVar v => (set_var v db, None)
  | Sql.InsertIgnore t c1 c2 v1 v2 =>
      match var_get v1 (session db), var_get v2 (session db) with
      | Some a, Some b => (insert_ignore (Link t a b) db, None)
      | _, _ => (db, Some "Column cannot be null")
      end
  end.

(** Modelled from the spec: the statements run one after the other and stop
    at the first refusal, the statements before it remaining applied. *)
Fixpoint run_statements (l : list Sql.statement) (db : store)
  : store * option string :=
  match l with
  | [] => (db, None)
  | s :: r =>
      match run_statement s db with
      | (db', None) => run_statements r db'
      | (db', Some e) => (db', Some e)
      end
  end.

(** Modelled from the spec: the store as the cursor of [insert_all]: it is
    given the statement, reads it and runs what it has read; a text it
    cannot read is refused as a whole. *)
Definition submit (statement : string) (db : store) : store * option string :=
  match Sql.read statement with
  | Some l => run_statements l db
  | None => (db, Some "You have an error in your SQL syntax")
  end.

(** The statements that the text of a fragment is made of: the insert of
    the row, the capture of its identifier and, with a parent, the insert
    into the table of associations. *)
Definition statements_of (f : fragment) : list Sql.statement :=
  [Sql.Upsert (f_table f) (f_keys f) (f_values f) ("id_" ++ f_table f);
   Sql.SetVar ("id_" ++ f_table f)]
  ++ match f_parent f with
     | Some p =>
         [Sql.InsertIgnore (f_table f ++ "_" ++ p)
            ("id_" ++ f_table f) ("id_" ++ p)
            ("id_" ++ f_table f) ("id_" ++ p)]
     | None => []
     end.

Definition exec_fragment (f : fragment) (db : store) : store * option string :=
  run_statements (statements_of f) db.

Definition run_batch (l : list fragment) (db : store) : store * option string :=
  run_statements (flat_map statements_of l) db.

(** What the store holds after a batch is kept by a later state. *)
Definition extends (a b : store) : Prop :=
  (forall t n i, find_row t n (rows a) = Some i -> find_row t n (rows b) = Some i)
  /\ (forall k, existsb (link_eqb k) (links a) = true ->
                existsb (link_eqb k) (links b) = true).

(** The row of the fragment has a name. *)
Definition named (f : fragment) : bool :=
  match fragment_name f with
  | Some _ => true
  | None => false
  end.

(** Two sessions hold the same value for the variable of each table of
    [vars]. *)
Definition agree (vars : list string) (a b : store) : Prop :=
  forall v, In v vars ->
    var_get ("id_" ++ v) (session a) = var_get ("id_" ++ v) (session b).

Definition empty_store : store := MkStore [] [] 1 0 [].


(** The part of the request that comes from one instance. *)
Definition entity_request (e : entity) (parent : option entity) : list fragment :=
  rev (flat_map atoms_of (insert_plan e parent)).

(** ** Instances used as examples *)

Definition category_A : entity := Entity Category [("name", AStr "A")].
Definition category_B : entity := Entity Category [("name", AStr "B")].
Definition store_S : entity := Entity Store [("name", AStr "S")].

Definition category_C : entity := Entity Category [("name", AStr "C")].

Definition raw_product : dict :=
  [("name", AStr EmptyString); ("nutriscore", AInt 3); ("url", ANone);
   ("category", AStr "A, B ,C"); ("store", AStr "S, l'eau, ,")].

Definition product_eau : entity :=
  Entity Product
    [("name", AStr "eau"); ("nutriscore", AInt 3); ("url", ANone);
     ("category", AList [category_A; category_B]);
     ("store", AList [store_S])].

(** A connection that refuses every batch, and one whose queries yield two
    records. *)
Definition refuse (statement : string) (db : unit) : unit * option string :=
  (db, Some "Lost connection").

Definition two_records (statement : string) (db : unit)
  : unit * (string + list (list attr)) :=
  (db, inr [[AStr "A"]; [AStr "B"]]).


(** ** The size of an instance *)

(** The number of instances in the tree of [e]: [e] and, for each attribute
    that is a list, the instances of that list with their own trees. *)
Fixpoint entity_size (e : entity) : nat :=
  match e with
  | Entity _ items =>
      S (list_sum
           (map (fun kv =>
                   match snd kv with
                   | AList l => list_sum (map entity_size l)
                   | _ => 0
                   end) items))
  end.

(** ** The API manager: [Model/Manager/api_manager.py] *)

(** [Static/constant.py]: the names the module defines, with their values. *)
Inductive constant_value : Type :=
| CStr (s : string)
| CInt (z : Z)
| CDict (l : list (string * constant_value)).

Definition constant : list (string * constant_value) :=
  [("PRODUCTS_URL", CStr "https://fr.openfoodfacts.org/cgi/search.pl");
   ("CATEGORIES_URL", CStr "https://fr.openfoodfacts.org/categories");
   ("PRODUCTS_ACTION", CStr "process");
   ("PRODUCTS_SORT_BY", CStr "unique_scans_n");
   ("PRODUCTS_PAGE_SIZE", CInt 100);
   ("PRODUCTS_JSON", CStr "true");
   ("PRODUCTS_PAGE", CInt 1);
   ("PRODUCTS_PARAMETERS",
    CDict [("action", CStr "process"); ("sort_by", CStr "unique_scans_n");
           ("page_size", CInt 100); ("json", CStr "true")]);
   ("CATEGORIES_SORT_BY", CStr "products");
   ("CATEGORIES_JSON", CStr "true");
   ("CATEGORIES_PARAMETERS",
    CDict [("sort_by", CStr "products"); ("json", CStr "true")])].

Fixpoint names_get (k : string) (l : list (string * constant_value))
  : option constant_value :=
  match l with
  | [] => None
  | (k', v) :: r => if String.eqb k' k then Some v else names_get k r
  end.

(** [constant.<name>]: a name the module does not define raises
    [AttributeError]. *)
Definition constant_getattr (name : string) : result constant_value :=
  match names_get name constant with
  | Some v => Ok v
  | None => Raise AttributeError
  end.

(** [parameters.update({k: v})] *)
Fixpoint parameters_update (k : string) (v : constant_value)
    (d : list (string * constant_value)) : list (string * constant_value) :=
  match d with
  | [] => [(k, v)]
  | (k', v') :: r =>
      if String.eqb k' k then (k', v) :: r else (k', v') :: parameters_update k v r
  end.

(** The instance of [APIManager]. *)
Record api_manager : Type := ApiManager {
  api_url : constant_value;
  api_page_size : Z;
  api_page_number : Z;
  api_products : list entity
}.

(** [APIManager.__init__] *)
Definition api_init (url : option string) (page_size page_number : option Z)
  : result api_manager :=
  match (match url with
         | Some u => Ok (CStr u)
         | None => constant_getattr "OFF_URL"
         end) with
  | Raise e => Raise e
  | Ok u =>
      Ok (ApiManager u
            (match page_size with Some n => n | None => 20%Z end)
            (match page_number with Some n => n | None => 1%Z end)
            [])
  end.

(** [outline[k]] *)
Definition outline_get (k : string) (outline : dict) : result attr :=
  match dict_get k outline with
  | Some v => Ok v
  | None => Raise KeyError
  end.

(** [v == s] for a string [s]. *)
Definition attr_eq_str (v : attr) (s : string) : bool :=
  match v with
  | AStr x => String.eqb x s
  | _ => false
  end.

(** [bool(v)] *)
Definition truthy (v : attr) : bool :=
  match v with
  | ANone => false
  | AStr s => negb (String.eqb s EmptyString)
  | AInt z => negb (Z.eqb z 0)
  | AList l => match l with [] => false | _ :: _ => true end
  end.

(** [any(v for (k, v) in items)] *)
Definition any_value (items : list (string * attr)) : bool :=
  existsb (fun kv => truthy (snd kv)) items.

(** [b == s] for a boolean [b] and a string [s]: never equal. *)
Definition bool_eq_str (b : bool) (s : string) : bool := false.

(** The body of the [try] of [clean_response]. *)
Definition try_outline (outline : dict) : result entity :=
  match outline_get "product_name_fr" outline with
  | Raise e => Raise e
  | Ok name =>
  match outline_get "nutriscore_score" outline with
  | Raise e => Raise e
  | Ok nutriscore =>
  match outline_get "url" outline with
  | Raise e => Raise e
  | Ok url =>
  match outline_get "categories" outline with
  | Raise e => Raise e
  | Ok categories =>
  match outline_get "stores" outline with
  | Raise e => Raise e
  | Ok stores =>
      let attrs := [("name", name); ("nutriscore", nutriscore); ("url", url);
                    ("category", categories); ("store", stores)] in
      match create_instance "product" attrs with
      | Raise e => Raise e
      | Ok product =>
          if bool_eq_str (any_value (get_items product)) EmptyString
          then Raise KeyError
          else Ok product
      end
  end end end end end.

(** The loop of [clean_response] over the outlines, with [self.products];
    the exception, if one leaves the loop, comes with the products collected
    until then. *)
Fixpoint clean_response_loop (outlines : list dict) (products : list entity)
  : list entity * option exn :=
  match outlines with
  | [] => (products, None)
  | outline :: rest =>
      match outline_get "categories_lc" outline with
      | Raise e => (products, Some e)
      | Ok lc =>
          if attr_eq_str lc "fr" then
            match try_outline outline with
            | Ok product => clean_response_loop rest (products ++ [product])%list
            | Raise KeyError => clean_response_loop rest products
            | Raise e => (products, Some e)
            end
          else clean_response_loop rest products
      end
  end.

(** [clean_response(request)]: [request] is the list under the key products
    of the body of the response, when the body has that key. *)
Definition clean_response (request : option (list dict)) (products : list entity)
  : list entity * option exn :=
  match request with
  | None => (products, Some KeyError)
  | Some outlines => clean_response_loop outlines products
  end.

Section Network.

(** [requests.get(url, params=parameters)], which is not part of the
    manager: it moves the network on and yields a response. *)
Variable net : Type.
Variable requests_get :
  constant_value -> list (string * constant_value) -> net
  -> net * option (list dict).

(** The loop of [get_load] over the pages. *)
Fixpoint page_loop (pages : list Z) (url : constant_value)
    (parameters : list (string * constant_value)) (products : list entity)
    (n : net) : list entity * net * option exn :=
  match pages with
  | [] => (products, n, None)
  | page :: rest =>
      let parameters := parameters_update "page_number" (CInt page) parameters in
      let '(n', answer) := requests_get url parameters n in
      match clean_response answer products with
      | (products', None) => page_loop rest url parameters products' n'
      | (products', Some e) => (products', n', Some e)
      end
  end.

(** [range(1, n + 1)] *)
Definition pages_to (n : Z) : list Z := map Z.of_nat (seq 1 (Z.to_nat n)).

(** [get_load]: the products of the manager, the network and the exception
    raised, if any. *)
Definition get_load (m : api_manager) (n : net)
  : list entity * net * option exn :=
  match constant_getattr "API_PARAMETERS" with
  | Raise e => (api_products m, n, Some e)
  | Ok (CDict parameters) =>
      let parameters :=
        parameters_update "page_size" (CInt (api_page_size m)) parameters in
      page_loop (pages_to (api_page_number m)) (api_url m) parameters
        (api_products m) n
  | Ok _ => (api_products m, n, Some AttributeError)
  end.

End Network.

(** The product [clean_response] is expected to build from an outline: none
    unless the outline is in French and has the five keys; the values are not
    looked at. *)
Definition expected_product (outline : dict) : list entity :=
  match dict_get "categories_lc" outline with
  | Some lc =>
      if attr_eq_str lc "fr" then
        match dict_get "product_name_fr" outline,
              dict_get "nutriscore_score" outline,
              dict_get "url" outline,
              dict_get "categories" outline,
              dict_get "stores" outline with
        | Some name, Some nutriscore, Some url, Some categories, Some stores =>
            [Entity Product
               (map expand
                  [("name", name); ("nutriscore", nutriscore); ("url", url);
                   ("category", categories); ("store", stores)])]
        | _, _, _, _, _ => []
        end
      else []
  | None => []
  end.

(** The outline has the key of the language. *)
Definition has_language (outline : dict) : bool :=
  match dict_get "categories_lc" outline with
  | Some _ => true
  | None => false
  end.

(** The outlines that come before the first one without a language. *)
Fixpoint before_failure (outlines : list dict) : list dict :=
  match outlines with
  | [] => []
  | outline :: rest =>
      if has_language outline then outline :: before_failure rest else []
  end.

(** The attributes without the ones that are [None]. *)
Definition without_none (items : list (string * attr)) : list (string * attr) :=
  filter (fun kv => match snd kv with ANone => false | _ => true end) items.

(** No string under the key of a child kind. *)
Definition resolved (attributes : dict) : bool :=
  forallb (fun kv =>
             match register_get (fst kv) class_register, snd kv with
             | Some _, AStr _ => false
             | _, _ => true
             end) attributes.

(** A value a JSON body gives for a field: no list of instances. *)
Definition plain (v : attr) : bool :=
  match v with
  | AList _ => false
  | _ => true
  end.

(** An outline of a page whose queries all carry a name: its values are
    plain and the name of the product, when there is one, is a string. *)
Definition well_named (outline : dict) : bool :=
  forallb (fun kv => plain (snd kv)) outline
  && match dict_get "product_name_fr" outline with
     | Some (AStr _) => true
     | Some _ => false
     | None => true
     end.

(** Outlines and a network used as examples. *)
Definition outline_eau : dict :=
  [("categories_lc", AStr "fr"); ("product_name_fr", AStr "eau");
   ("nutriscore_score", AInt 3); ("url", AStr "u");
   ("categories", AStr "A, B"); ("stores", AStr "S")].

Definition outline_empty_name : dict :=
  [("categories_lc", AStr "fr"); ("product_name_fr", AStr EmptyString);
   ("nutriscore_score", ANone); ("url", AStr EmptyString);
   ("categories", AStr EmptyString); ("stores", AStr EmptyString)].

Definition outline_english : dict :=
  [("categories_lc", AStr "en"); ("product_name_fr", AStr "water")].

Definition outline_no_store : dict :=
  [("categories_lc", AStr "fr"); ("product_name_fr", AStr "lait");
   ("nutriscore_score", AInt 1); ("url", AStr "v"); ("categories", AStr "A")].

Definition outline_no_language : dict :=
  [("product_name_fr", AStr "pain")].

Definition one_page (url : constant_value)
    (parameters : list (string * constant_value)) (n : nat)
  : nat * option (list dict) :=
  (S n, Some [outline_eau]).

Definition failing_query (statement : string) (db : unit)
  : unit * (string + list (list attr)) :=
  (db, inl "Lost connection").

(** An outline whose product has a name with a quote and nothing else, and
    the product [clean_response] makes of it. *)
Definition outline_quoted : dict :=
  [("categories_lc", AStr "fr"); ("product_name_fr", AStr "L'eau");
   ("nutriscore_score", ANone); ("url", ANone);
   ("categories", AStr EmptyString); ("stores", AStr EmptyString)].

Definition product_quoted : entity :=
  Entity Product
    [("name", AStr "L'eau"); ("nutriscore", ANone); ("url", ANone);
     ("category", AList []); ("store", AList [])].

(** * Properties *)

(** ** Induction over nested lists and over entities *)

Lemma nested_induction (A : Type) (P : nested A -> Prop) :
  (forall a, P (Atom a)) ->
  (forall l, Forall P l -> P (Nest l)) ->
  forall n, P n.
Proof.
  intros Hatom Hnest.
  fix IH 1.
  intros [a | l].
  - apply Hatom.
  - apply Hnest.
    induction l as [| x l IHl]; constructor.
    + apply IH.
    + exact IHl.
Qed.

Lemma entity_induction (P : entity -> Prop) :
  (forall e, Forall P (children_of (get_items e)) -> P e) ->
  forall e, P e.
Proof.
  intros Hstep.
  fix IH 1.
  intros [cls items].
  apply Hstep. simpl.
  induction items as [| [k v] items IHitems]; simpl.
  - constructor.
  - apply Forall_app. split; [| exact IHitems].
    destruct v as [| s | z | l]; try constructor.
    induction l as [| c l IHl]; constructor.
    + apply IH.
    + exact IHl.
Qed.

(** ** The loops of the builder *)

Section Builder.

Variable A : Type.
Variable recurse : entity -> list (nested A).

Lemma each_child_spec (l : list entity) (children : list (nested A)) :
  each_child recurse l children
  = (children ++ map (fun c => Nest (recurse c)) l)%list.
Proof.
  revert children.
  induction l as [| c l IHl]; intros children; simpl.
  - now rewrite app_nil_r.
  - rewrite IHl, <- app_assoc. reflexivity.
Qed.

Lemma unpack_spec (items : list (string * attr)) (children : list (nested A))
    (row_keys : list string) (row_values : list scalar) :
  unpack recurse items children row_keys row_values
  = ((children ++ map (fun c => Nest (recurse c)) (children_of items))%list,
     (row_keys ++ map fst (row_of items))%list,
     (row_values ++ map snd (row_of items))%list).
Proof.
  revert children row_keys row_values.
  induction items as [| [k v] items IHitems]; intros children row_keys row_values.
  - simpl. now rewrite !app_nil_r.
  - destruct v as [| s | z | l]; simpl; rewrite IHitems.
    + reflexivity.
    + now rewrite <- !app_assoc.
    + now rewrite <- !app_assoc.
    + rewrite each_child_spec, map_app, <- app_assoc. reflexivity.
Qed.

End Builder.

Lemma create_query_insert_row_eq (e : entity) (parent : option entity) :
  create_query_insert_row e parent
  = (map (fun c => Nest (create_query_insert_row c (Some e)))
       (children_of (get_items e))
     ++ [Atom (own_query e parent)])%list.
Proof.
  destruct e as [cls items]. simpl.
  rewrite unpack_spec. reflexivity.
Qed.

Lemma insert_plan_eq (e : entity) (parent : option entity) :
  insert_plan e parent
  = (map (fun c => Nest (insert_plan c (Some e))) (children_of (get_items e))
     ++ [Atom (own_fragment e parent)])%list.
Proof.
  destruct e as [cls items]. simpl.
  rewrite unpack_spec. reflexivity.
Qed.

(** The text of the plan is what the builder returns. *)
Lemma create_query_insert_row_plan (e : entity) :
  forall parent,
    create_query_insert_row e parent
    = map (nested_map fragment_text) (insert_plan e parent).
Proof.
  induction e as [e IH] using entity_induction.
  intros parent.
  rewrite create_query_insert_row_eq, insert_plan_eq, map_app, map_map.
  simpl. f_equal.
  apply map_ext_in. intros c Hc.
  rewrite Forall_forall in IH.
  simpl. now rewrite (IH c Hc).
Qed.

(** ** Flattening *)

Lemma flatten_nested_spec (A : Type) (n : nested A) :
  forall atoms, flatten_nested n atoms = (atoms ++ atoms_of n)%list.
Proof.
  induction n as [a | l IH] using nested_induction; intros atoms.
  - reflexivity.
  - simpl. revert atoms.
    induction IH as [| x l Hx _ IHl]; intros atoms; simpl.
    + now rewrite app_nil_r.
    + rewrite IHl, Hx, <- app_assoc. reflexivity.
Qed.

Lemma flatten_list_spec (A : Type) (listing : list (nested A)) (components : option (list A)) :
  flatten_list listing components
  = (match components with None => [] | Some c => c end
     ++ flat_map atoms_of listing)%list.
Proof.
  unfold flatten_list.
  generalize (match components with None => [] | Some c => c end).
  induction listing as [| x listing IH]; intros atoms; simpl.
  - now rewrite app_nil_r.
  - rewrite IH, flatten_nested_spec, <- app_assoc. reflexivity.
Qed.

Lemma atoms_of_map (A B : Type) (f : A -> B) (n : nested A) :
  atoms_of (nested_map f n) = map f (atoms_of n).
Proof.
  induction n as [a | l IH] using nested_induction.
  - reflexivity.
  - simpl. induction IH as [| x l Hx _ IHl]; simpl.
    + reflexivity.
    + rewrite map_app, Hx, IHl. reflexivity.
Qed.

Lemma flat_map_atoms_map (A B : Type) (f : A -> B) (l : list (nested A)) :
  flat_map atoms_of (map (nested_map f) l) = map f (flat_map atoms_of l).
Proof.
  induction l as [| x l IH]; simpl.
  - reflexivity.
  - rewrite map_app, atoms_of_map, IH. reflexivity.
Qed.

Lemma fold_append (A B : Type) (f : A -> B) (l : list A) (acc : list B) :
  fold_left (fun queries instance => (queries ++ [f instance])%list) l acc
  = (acc ++ map f l)%list.
Proof.
  revert acc. induction l as [| x l IH]; intros acc; simpl.
  - now rewrite app_nil_r.
  - rewrite IH, <- app_assoc. reflexivity.
Qed.

Lemma build_queries_eq (p : payload) :
  build_queries p
  = map (fun e => Nest (create_query_insert_row e None)) (instances_of p).
Proof.
  destruct p as [e | l]; simpl.
  - reflexivity.
  - now rewrite fold_append.
Qed.

Lemma plan_queries_eq (p : payload) :
  plan_queries p = map (fun e => Nest (insert_plan e None)) (instances_of p).
Proof.
  destruct p as [e | l]; simpl.
  - reflexivity.
  - now rewrite fold_append.
Qed.

Lemma build_request_plan (p : payload) :
  build_request p = map fragment_text (plan_request p).
Proof.
  unfold build_request, plan_request.
  rewrite !flatten_list_spec, build_queries_eq, plan_queries_eq. simpl.
  rewrite map_rev. f_equal.
  rewrite <- flat_map_atoms_map, map_map.
  f_equal. apply map_ext. intros e. simpl.
  now rewrite create_query_insert_row_plan.
Qed.

(** ** Strings *)

Lemma append_assoc (a b c : string) : (a ++ b) ++ c = a ++ (b ++ c).
Proof.
  induction a as [| x a IH]; simpl.
  - reflexivity.
  - now rewrite IH.
Qed.

Lemma remove_append (c : ascii) (a b : string) :
  Py.remove c (a ++ b) = Py.remove c a ++ Py.remove c b.
Proof.
  induction a as [| x a IH]; simpl.
  - reflexivity.
  - destruct (Ascii.eqb x c); simpl; now rewrite IH.
Qed.

(** A text closed by a quote and a parenthesis is not one closed by a comma
    and a parenthesis. *)
Lemma quote_paren_not_comma_paren (a b : string) : a ++ "')" <> b ++ ",)".
Proof.
  revert b.
  induction a as [| x a IH]; intros b; simpl.
  - destruct b as [| c [| c' [| c'' b]]]; simpl; discriminate.
  - destruct b as [| c b]; simpl.
    + destruct a as [| y [| y' a]]; simpl; discriminate.
    + intros H. injection H as _ H. exact (IH b H).
Qed.

(** ** The shape of the builder's output *)

Lemma flatten_builder (e : entity) (parent : option entity) :
  flatten_list (create_query_insert_row e parent) None
  = (flat_map (fun c => flatten_list (create_query_insert_row c (Some e)) None)
       (children_of (get_items e))
     ++ [own_query e parent])%list.
Proof.
  rewrite flatten_list_spec, create_query_insert_row_eq. simpl.
  rewrite flat_map_app. simpl. f_equal.
  induction (children_of (get_items e)) as [| c l IH]; simpl.
  - reflexivity.
  - rewrite IH, flatten_list_spec. reflexivity.
Qed.

(** C3 (as the code has it): the nested output of [create_query_insert_row]
    holds one sub-list per child, in the order of the children, and then the
    entity's own query as its last element; the association insert is the
    tail of that same query.  Flattened, every node's own query comes after
    all the queries of its children. *)
Theorem own_query_after_children (e : entity) (parent : option entity) :
  create_query_insert_row e parent
  = (map (fun c => Nest (create_query_insert_row c (Some e)))
       (children_of (get_items e))
     ++ [Atom (own_query e parent)])%list
  /\ flatten_list (create_query_insert_row e parent) None
     = (flat_map (fun c => flatten_list (create_query_insert_row c (Some e)) None)
          (children_of (get_items e))
        ++ [own_query e parent])%list
  /\ own_query e parent
     = match parent with
       | Some q =>
           own_query e None ++ query_tail (table_name e) (table_name q)
       | None => own_query e None
       end.
Proof.
  split; [apply create_query_insert_row_eq |].
  split; [apply flatten_builder |].
  destruct parent; reflexivity.
Qed.

(** C3, the claim as written fails: for a product with two categories and a
    store, the first elements of the output are the children's sub-lists and
    the product's own query is the last one, in the nested output and in the
    flattened one. *)
Lemma own_query_not_first :
  create_query_insert_row product_eau None
  = [Nest [Atom (own_query category_A (Some product_eau))];
     Nest [Atom (own_query category_B (Some product_eau))];
     Nest [Atom (own_query store_S (Some product_eau))];
     Atom (own_query product_eau None)]
  /\ flatten_list (create_query_insert_row product_eau None) None
     = [own_query category_A (Some product_eau);
        own_query category_B (Some product_eau);
        own_query store_S (Some product_eau);
        own_query product_eau None]
  /\ hd_error (flatten_list (create_query_insert_row product_eau None) None)
     <> Some (own_query product_eau None).
Proof.
  split; [reflexivity |].
  split; [reflexivity |].
  vm_compute. discriminate.
Qed.

(** ** The single-column row *)

Lemma format_keys_single (k : string) (v : scalar) :
  format_keys [k] [v] = "(" ++ Py.remove Py.quote k ++ ")".
Proof.
  unfold format_keys. simpl Nat.eqb. cbv iota.
  cbn [nth].
  rewrite !remove_append.
  replace (Py.remove Py.quote "(") with "(" by reflexivity.
  replace (Py.remove Py.quote ")") with ")" by reflexivity.
  replace (Py.remove Py.quote "'") with EmptyString by reflexivity.
  simpl. f_equal.
  induction (Py.remove Py.quote k) as [| x r IH]; simpl.
  - reflexivity.
  - now rewrite IH.
Qed.

Lemma format_values_single (k : string) (v : scalar) :
  format_values [k] [v] = "('" ++ str_scalar v ++ "')".
Proof.
  unfold format_values. simpl Nat.eqb. cbv iota.
  cbn [nth]. simpl. now rewrite append_assoc.
Qed.

(** ** The batch executor *)

(** C10: a single instance and the list of that one instance give the same
    statement, hence the same call. *)
Theorem insert_all_single_or_list (conn : Type)
    (execute_multi : string -> conn -> conn * option string)
    (e : entity) (db : conn) :
  build_statement (Single e) = build_statement (Many [e])
  /\ insert_all execute_multi (Single e) db = insert_all execute_multi (Many [e]) db.
Proof.
  assert (H : build_statement (Single e) = build_statement (Many [e])).
  { unfold build_statement, build_request.
    now rewrite !build_queries_eq. }
  split; [exact H |].
  unfold insert_all. now rewrite H.
Qed.

(** C7 (as the code has it): when the store refuses the batch, [insert_all]
    catches the error, prints it and returns normally; the statement is
    submitted once and the connection is left as that submission left it. *)
Theorem insert_all_reports_error (conn : Type)
    (execute_multi : string -> conn -> conn * option string)
    (p : payload) (db db' : conn) (e : string) :
  execute_multi (build_statement p) db = (db', Some e) ->
  insert_all execute_multi p db
  = Outcome db' ["The error '" ++ e ++ "' occurred"] (Ok tt).
Proof.
  intros H. unfold insert_all. now rewrite H.
Qed.

Lemma insert_all_reports_error_witness :
  insert_all refuse (Single category_A) tt
  = Outcome tt ["The error 'Lost connection' occurred"] (Ok tt).
Proof.
  exact (insert_all_reports_error refuse (Single category_A) tt eq_refl).
Defined.

(** C7, the claim as written fails: the store refuses the batch and
    [insert_all] returns normally, the error is not raised to the caller. *)
Lemma insert_all_swallows_error :
  refuse (build_statement (Single category_A)) tt = (tt, Some "Lost connection")
  /\ returned (insert_all refuse (Single category_A) tt) = Ok tt
  /\ returned (insert_all refuse (Single category_A) tt)
     <> Raise (DbError "Lost connection").
Proof.
  split; [reflexivity |].
  split; [reflexivity |].
  discriminate.
Qed.

(** ** The row reader *)



(** ** The order of the request *)

Lemma rev_flat_map (A B : Type) (f : A -> list B) (l : list A) :
  rev (flat_map f l) = flat_map (fun x => rev (f x)) (rev l).
Proof.
  induction l as [| x l IH]; simpl.
  - reflexivity.
  - rewrite rev_app_distr, IH, flat_map_app. simpl.
    now rewrite app_nil_r.
Qed.

Lemma entity_request_eq (e : entity) (parent : option entity) :
  entity_request e parent
  = own_fragment e parent
    :: flat_map (fun c => entity_request c (Some e))
         (rev (children_of (get_items e))).
Proof.
  unfold entity_request.
  rewrite insert_plan_eq, flat_map_app, rev_app_distr. simpl.
  f_equal.
  rewrite flat_map_concat_map, map_map, <- flat_map_concat_map.
  apply rev_flat_map.
Qed.

Lemma plan_request_eq (p : payload) :
  plan_request p = flat_map (fun e => entity_request e None) (rev (instances_of p)).
Proof.
  unfold plan_request.
  rewrite flatten_list_spec, plan_queries_eq. simpl.
  rewrite flat_map_concat_map, map_map, <- flat_map_concat_map.
  apply rev_flat_map.
Qed.

Lemma ordered_incl (l : list fragment) :
  forall ctx ctx', incl ctx ctx' -> ordered ctx l -> ordered ctx' l.
Proof.
  induction l as [| f l IH]; intros ctx ctx' Hincl; cbn [ordered].
  - trivial.
  - intros [Hf Hl]. split.
    + intros v Hv. destruct (Hf v Hv) as [H | H]; [now left | right; now apply Hincl].
    + apply (IH (sets f ++ ctx)%list); [| exact Hl].
      apply incl_app; [apply incl_appl, incl_refl | apply incl_appr, Hincl].
Qed.

Lemma ordered_app (l1 : list fragment) :
  forall ctx l2, ordered ctx l1 -> ordered ctx l2 -> ordered ctx (l1 ++ l2).
Proof.
  induction l1 as [| f l1 IH]; intros ctx l2; cbn [ordered app].
  - trivial.
  - intros [Hf Hl1] Hl2. split; [exact Hf |].
    apply IH; [exact Hl1 |].
    apply (ordered_incl l2 (ctx := ctx)); [apply incl_appr, incl_refl | exact Hl2].
Qed.

Lemma ordered_flat_map (A : Type) (f : A -> list fragment) (ctx : list string)
    (l : list A) :
  Forall (fun x => ordered ctx (f x)) l -> ordered ctx (flat_map f l).
Proof.
  induction 1 as [| x l Hx _ IH]; simpl.
  - trivial.
  - now apply ordered_app.
Qed.

(** The fragments of one instance read, beyond what they set themselves,
    only the variable of the parent. *)
Lemma entity_request_ordered (e : entity) :
  forall parent ctx,
    (forall q, parent = Some q -> In (table_name q) ctx) ->
    ordered ctx (entity_request e parent).
Proof.
  induction e as [e IH] using entity_induction.
  intros parent ctx Hparent.
  rewrite entity_request_eq. cbn [ordered]. split.
  - unfold refs, sets, own_fragment. simpl.
    destruct parent as [q |]; simpl; [| tauto].
    intros v [Hv | [Hv | []]]; subst v; [now left; left |].
    right. now apply Hparent.
  - apply ordered_flat_map.
    apply Forall_rev.
    rewrite Forall_forall in IH |- *.
    intros c Hc. apply (IH c Hc).
    intros q Hq. injection Hq as <-. now left.
Qed.

Lemma plan_request_ordered (p : payload) : ordered [] (plan_request p).
Proof.
  rewrite plan_request_eq.
  apply ordered_flat_map, Forall_forall.
  intros e _. apply entity_request_ordered. discriminate.
Qed.

Lemma ordered_nth_error (l : list fragment) :
  forall ctx i f v,
    ordered ctx l -> nth_error l i = Some f -> In v (refs f) ->
    In v ctx
    \/ exists j g, j <= i /\ nth_error l j = Some g /\ In v (sets g).
Proof.
  induction l as [| h l IH]; intros ctx i f v Hord Hnth Hv.
  - destruct i; discriminate.
  - cbn [ordered] in Hord. destruct Hord as [Hh Hl].
    destruct i as [| i]; simpl in Hnth.
    + injection Hnth as <-.
      destruct (Hh v Hv) as [H | H]; [| now left].
      right. exists 0, h. repeat split; [lia | exact H].
    + destruct (IH _ i f v Hl Hnth Hv) as [H | (j & g & Hj & Hg & Hs)].
      * apply in_app_or in H. destruct H as [H | H]; [| now left].
        right. exists 0, h. repeat split; [lia | exact H].
      * right. exists (S j), g. repeat split; [lia | exact Hg | exact Hs].
Qed.

(** C1: the request of [insert_all] is the text of the fragments of
    [plan_request], and every session variable that a fragment of the request
    reads is set by that fragment or by one placed before it: no fragment
    reads [@id_<table>] ahead of an upsert that sets it. *)
Theorem request_sets_before_reads (p : payload) :
  build_request p = map fragment_text (plan_request p)
  /\ forall i f v,
       nth_error (plan_request p) i = Some f ->
       In v (refs f) ->
       exists j g,
         j <= i /\ nth_error (plan_request p) j = Some g /\ In v (sets g).
Proof.
  split; [apply build_request_plan |].
  intros i f v Hnth Hv.
  destruct (@ordered_nth_error (plan_request p) [] i f v
              (plan_request_ordered p) Hnth Hv) as [[] | H].
  exact H.
Qed.

Lemma request_sets_before_reads_witness :
  exists j g,
    j <= 3
    /\ nth_error (plan_request (Single product_eau)) j = Some g
    /\ In "product" (sets g).
Proof.
  exact (proj2 (request_sets_before_reads (Single product_eau)) 3
           (own_fragment category_A (Some product_eau)) "product"
           eq_refl (or_intror (or_introl eq_refl))).
Defined.

(** ** The entity factory *)

Lemma try_token_spec (cls : EntityClass) (val : string) :
  try_token cls val
  = if valid_name (Py.strip val)
    then Ok (Entity cls [("name", AStr (Py.strip val))])
    else Raise KeyError.
Proof.
  unfold try_token, valid_name, new_instance, getattr. simpl.
  destruct (String.eqb (Py.strip val) EmptyString); simpl; [reflexivity |].
  destruct (Py.contains Py.quote (Py.strip val)); reflexivity.
Qed.

Lemma token_loop_spec (cls : EntityClass) (tokens : list string) :
  forall instance_list,
    token_loop cls tokens instance_list
    = Ok (instance_list
          ++ map (fun n => Entity cls [("name", AStr n)])
               (filter valid_name (map Py.strip tokens)))%list.
Proof.
  induction tokens as [| val tokens IH]; intros instance_list; simpl.
  - now rewrite app_nil_r.
  - rewrite try_token_spec.
    destruct (valid_name (Py.strip val)); simpl; rewrite IH.
    + now rewrite <- app_assoc.
    + reflexivity.
Qed.

Lemma attribute_loop_spec (items : list (string * attr)) :
  forall attributes,
    attribute_loop items attributes = Ok (fold_left resolve items attributes).
Proof.
  induction items as [| [key value] items IH]; intros attributes.
  - reflexivity.
  - cbn [attribute_loop fold_left].
    unfold resolve at 2. cbn [fst snd].
    destruct (register_get key class_register) as [cls |]; [| apply IH].
    destruct value as [| s | z | l]; try apply IH.
    rewrite token_loop_spec. cbn [app]. apply IH.
Qed.

Lemma fst_expand (kv : string * attr) : fst (expand kv) = fst kv.
Proof.
  unfold expand.
  destruct (register_get (fst kv) class_register); [| reflexivity].
  destruct (snd kv); reflexivity.
Qed.

Lemma dict_set_middle (k : string) (v v0 : attr) (pre rest : dict) :
  ~ In k (map fst pre) ->
  dict_set k v (pre ++ (k, v0) :: rest)%list = (pre ++ (k, v) :: rest)%list.
Proof.
  induction pre as [| [k' v'] pre IH]; simpl; intros Hk.
  - now rewrite String.eqb_refl.
  - destruct (String.eqb k' k) eqn:E.
    + apply String.eqb_eq in E. tauto.
    + rewrite IH; [reflexivity | tauto].
Qed.

Lemma resolve_middle (kv : string * attr) (pre rest : dict) :
  ~ In (fst kv) (map fst pre) ->
  resolve (pre ++ kv :: rest)%list kv = (pre ++ expand kv :: rest)%list.
Proof.
  intros Hk. destruct kv as [k v]. unfold resolve, expand. cbn [fst snd] in *.
  destruct (register_get k class_register) as [cls |]; [| reflexivity].
  destruct v as [| s | z | l]; try reflexivity.
  now apply dict_set_middle.
Qed.

Lemma fold_resolve (items : list (string * attr)) :
  forall pre,
    NoDup (map fst (pre ++ items)%list) ->
    fold_left resolve items (pre ++ items)%list = (pre ++ map expand items)%list.
Proof.
  induction items as [| kv items IH]; intros pre Hnodup; simpl.
  - reflexivity.
  - rewrite resolve_middle.
    + change (pre ++ expand kv :: items)%list
        with (pre ++ [expand kv] ++ items)%list.
      rewrite app_assoc, IH.
      * now rewrite <- app_assoc.
      * rewrite <- app_assoc. simpl.
        rewrite map_app in *. simpl in *. now rewrite fst_expand.
    + rewrite map_app in Hnodup. simpl in Hnodup.
      apply NoDup_remove_2 in Hnodup.
      intros H. apply Hnodup, in_or_app. now left.
Qed.

(** For a registered kind the factory always builds the instance: the
    delimited strings of the child kinds are replaced by their children, the
    other attributes are kept as they are. *)
Lemma create_instance_spec (kind : string) (cls : EntityClass) (attributes : dict) :
  register_get kind class_register = Some cls ->
  NoDup (map fst attributes) ->
  create_instance kind attributes = Ok (Entity cls (map expand attributes)).
Proof.
  intros Hkind Hnodup. unfold create_instance, new_instance.
  rewrite attribute_loop_spec, Hkind.
  pose proof (fold_resolve attributes [] Hnodup) as H.
  cbn [app] in H. now rewrite H.
Qed.

Lemma dict_get_expand (attributes : dict) (k : string) (v : attr) :
  NoDup (map fst attributes) ->
  In (k, v) attributes ->
  dict_get k (map expand attributes) = Some (snd (expand (k, v))).
Proof.
  induction attributes as [| [k' v'] attributes IH]; simpl; intros Hnodup Hin.
  - contradiction.
  - inversion Hnodup as [| ? ? Hnotin Hrest]; subst.
    destruct (expand (k', v')) as [k'' v''] eqn:E.
    assert (Hk : k'' = k') by (change k'' with (fst (k'', v''));
                               rewrite <- E; apply fst_expand).
    subst k''.
    destruct Hin as [Heq | Hin].
    + injection Heq as -> ->. rewrite String.eqb_refl. now rewrite E.
    + destruct (String.eqb k' k) eqn:Ek.
      * apply String.eqb_eq in Ek. subst k'.
        exfalso. apply Hnotin.
        change k with (fst (k, v)). now apply in_map.
      * now apply IH.
Qed.

Lemma in_expected_children (cls : EntityClass) (s : string) (c : entity) :
  In c (expected_children cls s) ->
  exists token,
    In token (Py.split ","%char s)
    /\ c = Entity cls [("name", AStr (Py.strip token))]
    /\ valid_name (Py.strip token) = true.
Proof.
  unfold expected_children. intros H.
  apply in_map_iff in H. destruct H as (n & <- & Hn).
  apply filter_In in Hn. destruct Hn as [Hn Hvalid].
  apply in_map_iff in Hn. destruct Hn as (token & <- & Htoken).
  now exists token.
Qed.

Lemma distinct_keys_NoDup (d : dict) :
  distinct_keys d = true -> NoDup (map fst d).
Proof.
  induction d as [| [k v] d IH]; simpl; intros H.
  - constructor.
  - apply andb_prop in H. destruct H as [Hk Hd].
    constructor; [| now apply IH].
    intros Hin.
    assert (E : existsb (String.eqb k) (map fst d) = true).
    { apply existsb_exists. exists k. split; [exact Hin | apply String.eqb_refl]. }
    rewrite E in Hk. discriminate.
Qed.

Lemma valid_name_true (n : string) :
  valid_name n = true -> n <> EmptyString /\ Py.contains Py.quote n = false.
Proof.
  unfold valid_name. intros H.
  apply andb_prop in H. destruct H as [H1 H2].
  apply negb_true_iff in H1, H2. split; [| exact H2].
  now apply String.eqb_neq.
Qed.

Lemma getattr_child (e : entity) (key : string) (kcls : EntityClass)
    (attributes : dict) (cls : EntityClass) (s : string) :
  e = Entity cls (map expand attributes) ->
  register_get key class_register = Some kcls ->
  NoDup (map fst attributes) ->
  In (key, AStr s) attributes ->
  getattr e key = Some (AList (expected_children kcls s)).
Proof.
  intros -> Hkey Hnodup Hin. unfold getattr. cbn [get_items].
  rewrite (@dict_get_expand attributes _ _ Hnodup Hin).
  unfold expand. cbn [fst snd]. now rewrite Hkey.
Qed.

(** C6: a delimited string under the key of a child kind becomes the list of
    the instances of that kind named by its tokens, split on commas and
    trimmed, less the tokens whose name is empty or holds a quote; the
    other tokens are not affected.  The string [A, B ,C] gives the three
    categories A, B and C, and [A,] gives the category A alone. *)
Theorem delimited_children :
  (forall (kind key : string) (cls kcls : EntityClass) (attributes : dict)
          (s : string),
      register_get kind class_register = Some cls ->
      register_get key class_register = Some kcls ->
      distinct_keys attributes = true ->
      In (key, AStr s) attributes ->
      exists e,
        create_instance kind attributes = Ok e
        /\ getattr e key
           = Some (AList (map (fun n => Entity kcls [("name", AStr n)])
                            (filter valid_name
                               (map Py.strip (Py.split ","%char s))))))
  /\ create_instance "product" [("name", AStr "eau"); ("category", AStr "A, B ,C")]
     = Ok (Entity Product
             [("name", AStr "eau");
              ("category", AList [category_A; category_B; category_C])])
  /\ create_instance "product" [("name", AStr "eau"); ("category", AStr "A,")]
     = Ok (Entity Product
             [("name", AStr "eau"); ("category", AList [category_A])]).
Proof.
  split; [| split; reflexivity].
  intros kind key cls kcls attributes s Hkind Hkey Hdistinct Hin.
  apply distinct_keys_NoDup in Hdistinct.
  exists (Entity cls (map expand attributes)). split.
  - now apply create_instance_spec.
  - now apply (@getattr_child _ key kcls attributes cls s).
Qed.

Lemma delimited_children_witness :
  exists e,
    create_instance "product" raw_product = Ok e
    /\ getattr e "category" = Some (AList [category_A; category_B; category_C]).
Proof.
  exact (proj1 delimited_children "product" "category" Product Category
           raw_product "A, B ,C" eq_refl eq_refl eq_refl
           (or_intror (or_intror (or_intror (or_introl eq_refl))))).
Defined.

(** C4 (as the code has it): for a registered kind the factory always builds
    the instance, with the keys it was given; an attribute that is not under
    the key of a child kind is kept as it is, whatever it holds; the
    instances built from a delimited string all have a name that is not
    empty. *)
Theorem factory_checks_children_only (kind : string) (cls : EntityClass)
    (attributes : dict) :
  register_get kind class_register = Some cls ->
  distinct_keys attributes = true ->
  exists e,
    create_instance kind attributes = Ok e
    /\ get_class e = cls
    /\ map fst (get_items e) = map fst attributes
    /\ (forall k v,
           In (k, v) attributes ->
           register_get k class_register = None ->
           getattr e k = Some v)
    /\ (forall key kcls s,
           In (key, AStr s) attributes ->
           register_get key class_register = Some kcls ->
           exists l,
             getattr e key = Some (AList l)
             /\ forall c, In c l ->
                  exists n, c = Entity kcls [("name", AStr n)] /\ n <> EmptyString).
Proof.
  intros Hkind Hdistinct.
  apply distinct_keys_NoDup in Hdistinct.
  exists (Entity cls (map expand attributes)).
  split; [now apply create_instance_spec |].
  split; [reflexivity |].
  split.
  { cbn [get_items]. rewrite map_map. apply map_ext. apply fst_expand. }
  split.
  - intros k v Hin Hk. unfold getattr. cbn [get_items].
    rewrite (@dict_get_expand attributes _ _ Hdistinct Hin).
    unfold expand. cbn [fst snd]. now rewrite Hk.
  - intros key kcls s Hin Hkey.
    exists (expected_children kcls s). split.
    + now apply (@getattr_child _ key kcls attributes cls s).
    + intros c Hc.
      apply in_expected_children in Hc.
      destruct Hc as (token & _ & -> & Hvalid).
      exists (Py.strip token). split; [reflexivity |].
      now apply valid_name_true.
Qed.

Lemma factory_checks_children_only_witness :
  exists e,
    create_instance "product" raw_product = Ok e
    /\ get_class e = Product
    /\ map fst (get_items e) = map fst raw_product
    /\ (forall k v,
           In (k, v) raw_product ->
           register_get k class_register = None ->
           getattr e k = Some v)
    /\ (forall key kcls s,
           In (key, AStr s) raw_product ->
           register_get key class_register = Some kcls ->
           exists l,
             getattr e key = Some (AList l)
             /\ forall c, In c l ->
                  exists n, c = Entity kcls [("name", AStr n)] /\ n <> EmptyString).
Proof.
  exact (factory_checks_children_only "product" raw_product eq_refl eq_refl).
Defined.

(** C4, the claim as written fails: with an empty name the factory still
    builds the instance, for a category and for a product. *)
Lemma empty_name_is_built :
  create_instance "category" [("name", AStr EmptyString)]
  = Ok (Entity Category [("name", AStr EmptyString)])
  /\ create_instance "product" raw_product
     = Ok (Entity Product
             [("name", AStr EmptyString); ("nutriscore", AInt 3); ("url", ANone);
              ("category", AList [category_A; category_B; category_C]);
              ("store", AList [store_S])]).
Proof.
  split; reflexivity.
Qed.

(** C5 (as the code has it): among the instances built from a delimited
    string under the key of a child kind none has a name holding a quote, and
    a token whose trimmed text holds a quote gives no instance. *)
Theorem quoted_tokens_dropped (kind key : string) (cls kcls : EntityClass)
    (attributes : dict) (s : string) :
  register_get kind class_register = Some cls ->
  register_get key class_register = Some kcls ->
  distinct_keys attributes = true ->
  In (key, AStr s) attributes ->
  exists e l,
    create_instance kind attributes = Ok e
    /\ getattr e key = Some (AList l)
    /\ (forall c n,
           In c l -> getattr c "name" = Some (AStr n) ->
           Py.contains Py.quote n = false)
    /\ (forall token,
           In token (Py.split ","%char s) ->
           Py.contains Py.quote (Py.strip token) = true ->
           ~ In (Entity kcls [("name", AStr (Py.strip token))]) l).
Proof.
  intros Hkind Hkey Hdistinct Hin.
  apply distinct_keys_NoDup in Hdistinct.
  exists (Entity cls (map expand attributes)), (expected_children kcls s).
  split; [now apply create_instance_spec |].
  split; [now apply (@getattr_child _ key kcls attributes cls s) |].
  split.
  - intros c n Hc Hn.
    apply in_expected_children in Hc.
    destruct Hc as (token & _ & -> & Hvalid).
    unfold getattr in Hn. simpl in Hn. injection Hn as <-.
    now apply valid_name_true.
  - intros token _ Hquote Hc.
    apply in_expected_children in Hc.
    destruct Hc as (token' & _ & Heq & Hvalid).
    injection Heq as Heq. rewrite <- Heq in Hvalid.
    apply valid_name_true in Hvalid. destruct Hvalid as [_ Hvalid].
    rewrite Hvalid in Hquote. discriminate.
Qed.

Lemma quoted_tokens_dropped_witness :
  exists e l,
    create_instance "product" raw_product = Ok e
    /\ getattr e "store" = Some (AList l)
    /\ (forall c n,
           In c l -> getattr c "name" = Some (AStr n) ->
           Py.contains Py.quote n = false)
    /\ (forall token,
           In token (Py.split ","%char "S, l'eau, ,") ->
           Py.contains Py.quote (Py.strip token) = true ->
           ~ In (Entity Store [("name", AStr (Py.strip token))]) l).
Proof.
  exact (quoted_tokens_dropped "product" "store" raw_product "S, l'eau, ,"
           eq_refl eq_refl eq_refl
           (or_intror (or_intror (or_intror (or_intror (or_introl eq_refl)))))).
Defined.

(** C5, the claim as written fails: a category whose name holds a quote is
    built when the name is given as such, not within a delimited string. *)
Lemma quoted_name_is_built :
  Py.contains Py.quote "l'eau" = true
  /\ create_instance "category" [("name", AStr "l'eau")]
     = Ok (Entity Category [("name", AStr "l'eau")]).
Proof.
  split; reflexivity.
Qed.

(** ** The text of a single-column query as the store reads it *)

Lemma word_char_plain (c : ascii) :
  Sql.word_char c = true ->
  Ascii.eqb c Py.quote = false
  /\ Sql.between_step c = (Sql.InWord (String c EmptyString), []).
Proof.
  destruct c as [[] [] [] [] [] [] [] []]; vm_compute; intros H;
    try discriminate; split; reflexivity.
Qed.

Lemma remove_quote_word (k : string) :
  Sql.all_chars Sql.word_char k = true -> Py.remove Py.quote k = k.
Proof.
  induction k as [| c k IH]; cbn [Sql.all_chars Py.remove]; intros H.
  - reflexivity.
  - apply andb_prop in H. destruct H as [Hc Hk].
    destruct (word_char_plain c Hc) as [Hq _].
    now rewrite Hq, IH.
Qed.

Lemma lex_run_in_word (k : string) :
  forall w r out,
    Sql.all_chars Sql.word_char k = true ->
    Sql.lex_run (k ++ r) (Sql.InWord w) out = Sql.lex_run r (Sql.InWord (w ++ k)) out.
Proof.
  induction k as [| c k IH]; intros w r out H.
  - simpl.
    replace (w ++ EmptyString) with w; [reflexivity |].
    induction w as [| x w IHw]; simpl; [reflexivity | now rewrite <- IHw].
  - cbn [Sql.all_chars] in H. apply andb_prop in H. destruct H as [Hc Hk].
    cbn [append Sql.lex_run Sql.lex_step]. rewrite Hc.
    rewrite app_nil_r, IH by exact Hk.
    unfold Sql.snoc. now rewrite append_assoc.
Qed.

(** A name followed by a character that is not of a word is read as one
    word. *)
Lemma lex_run_word (k : string) (c : ascii) (r : string) (out : list Sql.token) :
  Sql.column_name k = true ->
  Sql.word_char c = false ->
  Sql.lex_run (k ++ String c r) Sql.Between out
  = Sql.lex_run (String c r) Sql.Between (out ++ [Sql.TWord k])%list.
Proof.
  unfold Sql.column_name. intros Hk Hc.
  apply andb_prop in Hk. destruct Hk as [Hword Hnumber].
  destruct k as [| c0 k]; [discriminate |].
  assert (Hclass : Sql.classify (String c0 k) = Some (Sql.TWord (String c0 k))).
  { unfold Sql.classify. rewrite Hword.
    destruct (Sql.number_of (String c0 k)); [discriminate | reflexivity]. }
  cbn [Sql.is_word Sql.all_chars] in Hword.
  apply andb_prop in Hword. destruct Hword as [Hc0 Hrest].
  destruct (word_char_plain c0 Hc0) as [_ Hstep].
  cbn [append Sql.lex_run Sql.lex_step]. rewrite Hstep.
  rewrite app_nil_r, lex_run_in_word by exact Hrest.
  cbn [append Sql.lex_run Sql.lex_step]. rewrite Hc, Hclass.
  destruct (Sql.between_step c) as [st new].
  now rewrite <- app_assoc.
Qed.

Lemma lex_run_in_text (s : string) :
  forall q content r out,
    Py.contains q s = false ->
    Py.contains Py.backslash s = false ->
    Sql.lex_run (s ++ r) (Sql.InText q content) out
    = Sql.lex_run r (Sql.InText q (content ++ s)) out.
Proof.
  induction s as [| c s IH]; intros q content r out Hq Hb.
  - simpl.
    replace (content ++ EmptyString) with content; [reflexivity |].
    induction content as [| x w IHw]; simpl; [reflexivity | now rewrite <- IHw].
  - cbn [Py.contains] in Hq, Hb.
    apply orb_false_elim in Hq. destruct Hq as [Hq1 Hq2].
    apply orb_false_elim in Hb. destruct Hb as [Hb1 Hb2].
    cbn [append Sql.lex_run Sql.lex_step]. rewrite Hb1, Hq1.
    rewrite app_nil_r, IH by assumption.
    unfold Sql.snoc. now rewrite append_assoc.
Qed.

(** A text without a quote and without a backslash, closed by a quote that
    is not doubled, is read as one literal. *)
Lemma lex_run_text (s : string) (c : ascii) (r : string) (out : list Sql.token) :
  Py.contains Py.quote s = false ->
  Py.contains Py.backslash s = false ->
  Ascii.eqb c Py.quote = false ->
  Sql.lex_run (s ++ String Py.quote (String c r)) (Sql.InText Py.quote EmptyString) out
  = Sql.lex_run (String c r) Sql.Between (out ++ [Sql.TText s])%list.
Proof.
  intros Hq Hb Hc.
  rewrite lex_run_in_text by assumption.
  cbn [append Sql.lex_run Sql.lex_step].
  change (Ascii.eqb Py.quote Py.backslash) with false.
  change (Ascii.eqb Py.quote Py.quote) with true. cbv iota.
  cbn [Sql.lex_run Sql.lex_step].
  rewrite Hc, app_nil_r.
  destruct (Sql.between_step c) as [st new].
  now rewrite <- app_assoc.
Qed.

(** The store reads the query of a single-column row as the insert of that
    one value under that one column, when the column is a name and the text
    of the value has neither quote nor backslash. *)
Lemma read_single_column (cls : EntityClass) (parent : option EntityClass)
    (k s : string) :
  Sql.column_name k = true ->
  Py.contains Py.quote s = false ->
  Py.contains Py.backslash s = false ->
  let t := lower (class_name cls) in
  let p := option_map (fun c => lower (class_name c)) parent in
  Sql.read
    (match p with
     | Some q => query_head t ("(" ++ k ++ ")") ("('" ++ s ++ "')") ++ query_tail t q
     | None => query_head t ("(" ++ k ++ ")") ("('" ++ s ++ "')")
     end)
  = Some (statements_of (Fragment t [k] [SStr s] p)).
Proof.
  intros Hk Hq Hb t p. subst t p.
  unfold Sql.read, Sql.lex, query_head, query_tail, statements_of.
  destruct cls; destruct parent as [[] |];
    cbn [option_map class_name lower lower_char f_table f_keys f_values f_parent];
    simpl append; rewrite ?append_assoc; simpl append;
    rewrite ?append_assoc; simpl append;
    cbn [Sql.lex_run Sql.lex_step Sql.between_step]; simpl;
    rewrite lex_run_word by (assumption || reflexivity); simpl;
    rewrite lex_run_text by (assumption || reflexivity); simpl;
    reflexivity.
Qed.

(** C9 (as the code has it): an entity with one (column, value) pair among
    its attributes gets a query whose column list is the column between
    parentheses and whose value list is the text of the value between quotes
    and parentheses, with no comma; this is not what the formatting of a
    tuple of one value gives.  The value is put in as it is: when the column
    is a name and the text of the value has neither quote nor backslash, the
    store reads the query as the insert of that value under that column. *)
Theorem single_column_query (e : entity) (parent : option entity)
    (k : string) (v : scalar) :
  row_of (get_items e) = [(k, v)] ->
  let query :=
    query_head (table_name e) ("(" ++ Py.remove Py.quote k ++ ")")
      ("('" ++ str_scalar v ++ "')") in
  let text :=
    match parent with
    | Some q => query ++ query_tail (table_name e) (table_name q)
    | None => query
    end in
  create_query_insert_row e parent
  = (map (fun c => Nest (create_query_insert_row c (Some e)))
       (children_of (get_items e))
     ++ [Atom text])%list
  /\ "('" ++ str_scalar v ++ "')" <> Py.str_tuple [repr_scalar v]
  /\ (Sql.column_name k = true ->
      Py.contains Py.quote (str_scalar v) = false ->
      Py.contains Py.backslash (str_scalar v) = false ->
      Sql.read text
      = Some (statements_of
                (Fragment (table_name e) [k] [SStr (str_scalar v)]
                   (option_map table_name parent)))).
Proof.
  intros Hrow query text. split; [| split].
  - rewrite create_query_insert_row_eq. do 2 f_equal.
    unfold own_query, own_fragment, fragment_text, format_query. simpl.
    rewrite Hrow. simpl map.
    rewrite format_keys_single, format_values_single.
    destruct parent; reflexivity.
  - unfold Py.str_tuple.
    change ("('" ++ str_scalar v ++ "')") with (String "(" ("'" ++ str_scalar v ++ "')")).
    change ("(" ++ repr_scalar v ++ ",)") with (String "(" (repr_scalar v ++ ",)")).
    intros H. injection H as H.
    change (("'" ++ str_scalar v) ++ "')" = repr_scalar v ++ ",)") in H.
    exact (quote_paren_not_comma_paren _ _ H).
  - intros Hk Hq Hb. subst text query.
    assert (Hword : Py.remove Py.quote k = k).
    { apply remove_quote_word.
      unfold Sql.column_name in Hk. apply andb_prop in Hk.
      destruct Hk as [Hk _]. destruct k; [discriminate | exact Hk]. }
    rewrite Hword. unfold table_name.
    destruct parent as [q |].
    + exact (@read_single_column (get_class e) (Some (get_class q)) k
               (str_scalar v) Hk Hq Hb).
    + exact (@read_single_column (get_class e) None k (str_scalar v) Hk Hq Hb).
Qed.

Lemma single_column_query_witness :
  create_query_insert_row category_A None
  = [Atom "INSERT INTO category   (name)   VALUES ('A') ON DUPLICATE KEY UPDATE   id_category = LAST_INSERT_ID(id_category); SET @id_category = LAST_INSERT_ID() "]
  /\ "('A')" <> "('A',)"
  /\ Sql.read "INSERT INTO category   (name)   VALUES ('A') ON DUPLICATE KEY UPDATE   id_category = LAST_INSERT_ID(id_category); SET @id_category = LAST_INSERT_ID() "
     = Some [Sql.Upsert "category" ["name"] [SStr "A"] "id_category";
             Sql.SetVar "id_category"].
Proof.
  exact (let H := single_column_query category_A None (k := "name")
                    (v := SStr "A") eq_refl in
         conj (proj1 H)
           (conj (proj1 (proj2 H)) (proj2 (proj2 H) eq_refl eq_refl eq_refl))).
Defined.

(** C9, the claim as written fails: the product that [clean_response] makes
    of an outline whose name holds a quote, with no nutriscore and no url,
    has the name as its one (column, value) pair; the value list of its
    query is [('L'eau')], and the store cannot read the query.  So it is with
    a category whose name ends with a backslash, which the factory lets
    through. *)
Lemma quoted_value_not_read :
  clean_response (Some [outline_quoted]) [] = ([product_quoted], None)
  /\ row_of (get_items product_quoted) = [("name", SStr "L'eau")]
  /\ create_query_insert_row product_quoted None
     = [Atom "INSERT INTO product   (name)   VALUES ('L'eau') ON DUPLICATE KEY UPDATE   id_product = LAST_INSERT_ID(id_product); SET @id_product = LAST_INSERT_ID() "]
  /\ Sql.column_name "name" = true
  /\ Sql.read "INSERT INTO product   (name)   VALUES ('L'eau') ON DUPLICATE KEY UPDATE   id_product = LAST_INSERT_ID(id_product); SET @id_product = LAST_INSERT_ID() "
     = None
  /\ create_instance "category" [("name", AStr "a\")]
     = Ok (Entity Category [("name", AStr "a\")])
  /\ create_query_insert_row (Entity Category [("name", AStr "a\")]) None
     = [Atom "INSERT INTO category   (name)   VALUES ('a\') ON DUPLICATE KEY UPDATE   id_category = LAST_INSERT_ID(id_category); SET @id_category = LAST_INSERT_ID() "]
  /\ Sql.read "INSERT INTO category   (name)   VALUES ('a\') ON DUPLICATE KEY UPDATE   id_category = LAST_INSERT_ID(id_category); SET @id_category = LAST_INSERT_ID() "
     = None.
Proof.
  repeat split; vm_compute; reflexivity.
Qed.

(** ** The store: a batch run twice *)

Lemma scalar_eqb_refl (n : scalar) : scalar_eqb n n = true.
Proof.
  destruct n; simpl; [apply String.eqb_refl | apply Z.eqb_refl].
Qed.

Lemma link_eqb_refl (k : link) : link_eqb k k = true.
Proof.
  unfold link_eqb. now rewrite String.eqb_refl, !Nat.eqb_refl.
Qed.

Lemma find_row_app (t : string) (n : scalar) (l l' : list row) :
  find_row t n (l ++ l')
  = match find_row t n l with
    | Some i => Some i
    | None => find_row t n l'
    end.
Proof.
  induction l as [| r l IH]; simpl.
  - reflexivity.
  - destruct (String.eqb (row_table r) t && scalar_eqb (row_name r) n);
      [reflexivity | exact IH].
Qed.

Lemma extends_refl (a : store) : extends a a.
Proof.
  split; auto.
Qed.

Lemma extends_trans (a b c : store) : extends a b -> extends b c -> extends a c.
Proof.
  intros [H1 H2] [H3 H4]. split; auto.
Qed.

(** After the upsert the row is there, its identifier is the last
    identifier, and nothing that was in the store is lost. *)
Lemma upsert_spec (t : string) (n : scalar) (cells : list (string * scalar))
    (db : store) :
  exists i,
    find_row t n (rows (upsert t n cells db)) = Some i
    /\ last_id (upsert t n cells db) = i
    /\ session (upsert t n cells db) = session db
    /\ links (upsert t n cells db) = links db
    /\ extends db (upsert t n cells db).
Proof.
  unfold upsert.
  destruct (find_row t n (rows db)) as [i |] eqn:E.
  - exists i. simpl. repeat split; auto.
  - exists (next_id db). simpl. repeat split; auto.
    + rewrite find_row_app, E. simpl.
      now rewrite String.eqb_refl, scalar_eqb_refl.
    + intros t' n' i' H. simpl. now rewrite find_row_app, H.
Qed.

(** An upsert of a row that is there leaves the tables as they are. *)
Lemma upsert_found (t : string) (n : scalar) (cells : list (string * scalar))
    (db : store) (i : nat) :
  find_row t n (rows db) = Some i ->
  upsert t n cells db = MkStore (rows db) (links db) (next_id db) i (session db).
Proof.
  intros H. unfold upsert. now rewrite H.
Qed.

Lemma insert_ignore_spec (k : link) (db : store) :
  existsb (link_eqb k) (links (insert_ignore k db)) = true
  /\ rows (insert_ignore k db) = rows db
  /\ session (insert_ignore k db) = session db
  /\ extends db (insert_ignore k db).
Proof.
  unfold insert_ignore.
  destruct (existsb (link_eqb k) (links db)) eqn:E.
  - repeat split; auto.
  - simpl. repeat split; auto.
    + rewrite existsb_app. simpl. rewrite link_eqb_refl.
      now rewrite orb_true_r.
    + intros k' H. simpl. rewrite existsb_app, H. reflexivity.
Qed.

Lemma insert_ignore_found (k : link) (db : store) :
  existsb (link_eqb k) (links db) = true -> insert_ignore k db = db.
Proof.
  intros H. unfold insert_ignore. now rewrite H.
Qed.

Lemma var_get_id (t v : string) (i : nat) (vars : list (string * nat)) :
  var_get ("id_" ++ v) (("id_" ++ t, i) :: vars)
  = if String.eqb t v then Some i else var_get ("id_" ++ v) vars.
Proof.
  reflexivity.
Qed.

Lemma run_statements_app (l1 l2 : list Sql.statement) :
  forall db,
    run_statements (l1 ++ l2) db
    = match run_statements l1 db with
      | (db', None) => run_statements l2 db'
      | (db', Some e) => (db', Some e)
      end.
Proof.
  induction l1 as [| s l1 IH]; intros db; simpl.
  - reflexivity.
  - destruct (run_statement s db) as [db' [e |]]; [reflexivity | apply IH].
Qed.

Lemma run_batch_cons (f : fragment) (l : list fragment) (db : store) :
  run_batch (f :: l) db
  = match exec_fragment f db with
    | (db', None) => run_batch l db'
    | (db', Some e) => (db', Some e)
    end.
Proof.
  unfold run_batch, exec_fragment. cbn [flat_map].
  apply run_statements_app.
Qed.

(** What the statements of one fragment do, taken together. *)
Lemma exec_fragment_eq (f : fragment) (db : store) :
  exec_fragment f db
  = match fragment_name f with
    | None => (db, Some "Field 'name' doesn't have a default value")
    | Some n =>
        let db1 :=
          set_var ("id_" ++ f_table f)
            (upsert (f_table f) n (fragment_cells f) db) in
        match f_parent f with
        | None => (db1, None)
        | Some p =>
            match var_get ("id_" ++ f_table f) (session db1),
                  var_get ("id_" ++ p) (session db1) with
            | Some c, Some q =>
                (insert_ignore (Link (f_table f ++ "_" ++ p) c q) db1, None)
            | _, _ => (db1, Some "Column cannot be null")
            end
        end
    end.
Proof.
  unfold exec_fragment, statements_of, fragment_name, fragment_cells.
  cbn [app run_statements run_statement].
  rewrite String.eqb_refl.
  destruct (cell_get "name" (combine (f_keys f) (f_values f))) as [n |];
    [| reflexivity].
  destruct (f_parent f) as [p |]; [| reflexivity].
  cbn [app run_statements run_statement].
  destruct (var_get ("id_" ++ f_table f) _) as [c |]; [| reflexivity].
  destruct (var_get ("id_" ++ p) _) as [q |]; reflexivity.
Qed.

Lemma exec_fragment_extends (f : fragment) (a a' : store) (r : option string) :
  exec_fragment f a = (a', r) -> extends a a'.
Proof.
  rewrite exec_fragment_eq.
  destruct (fragment_name f) as [n |].
  2:{ intros H. injection H as <- _. apply extends_refl. }
  destruct (upsert_spec (f_table f) n (fragment_cells f) a)
    as (i & _ & _ & _ & _ & Hext).
  cbv zeta.
  set (a1 := set_var ("id_" ++ f_table f)
               (upsert (f_table f) n (fragment_cells f) a)).
  assert (H1 : extends a a1) by exact Hext.
  destruct (f_parent f) as [p |].
  - destruct (var_get ("id_" ++ f_table f) (session a1)) as [c |].
    + destruct (var_get ("id_" ++ p) (session a1)) as [q |];
        intros H; injection H as <- _; [| exact H1].
      eapply extends_trans; [exact H1 |]. apply insert_ignore_spec.
    + intros H. injection H as <- _. exact H1.
  - intros H. injection H as <- _. exact H1.
Qed.

Lemma run_batch_extends (l : list fragment) :
  forall a z r, run_batch l a = (z, r) -> extends a z.
Proof.
  induction l as [| f l IH]; intros a z r.
  - intros H. injection H as <- _. apply extends_refl.
  - rewrite run_batch_cons.
    destruct (exec_fragment f a) as [a' [e |]] eqn:E.
    + intros H. injection H as <- _. exact (exec_fragment_extends f a E).
    + intros H. eapply extends_trans.
      * exact (exec_fragment_extends f a E).
      * exact (IH _ _ _ H).
Qed.

Lemma agree_cons (t : string) (i : nat) (vars : list string)
    (sa sb : list (string * nat)) :
  (forall v, In v vars -> var_get ("id_" ++ v) sa = var_get ("id_" ++ v) sb) ->
  forall v, In v (t :: vars) ->
    var_get ("id_" ++ v) (("id_" ++ t, i) :: sa)
    = var_get ("id_" ++ v) (("id_" ++ t, i) :: sb).
Proof.
  intros H v Hv. rewrite !var_get_id.
  destruct (String.eqb t v) eqn:E; [reflexivity |].
  destruct Hv as [Hv | Hv]; [| now apply H].
  subst v. now rewrite String.eqb_refl in E.
Qed.

(** One fragment, run on a store that already holds what the first run
    left: the tables stay as they are and the variables take the values they
    took in the first run. *)
Lemma exec_fragment_again (f : fragment) (vars : list string) (a a' z b : store) :
  exec_fragment f a = (a', None) ->
  extends a' z ->
  rows b = rows z ->
  links b = links z ->
  agree vars a b ->
  (forall v, In v (refs f) -> In v (sets f) \/ In v vars) ->
  exists b',
    exec_fragment f b = (b', None)
    /\ rows b' = rows z
    /\ links b' = links z
    /\ agree (sets f ++ vars) a' b'.
Proof.
  intros Hexec [Hrows Hlinks] Hbrows Hblinks Hagree Hrefs.
  rewrite exec_fragment_eq in *.
  destruct (fragment_name f) as [n |]; [| discriminate].
  destruct (upsert_spec (f_table f) n (fragment_cells f) a)
    as (i & Hfind & Hlast & Hsession & _ & _).
  cbv zeta in *.
  set (a0 := upsert (f_table f) n (fragment_cells f) a) in *.
  set (a1 := set_var ("id_" ++ f_table f) a0) in *.
  assert (Ha1 : rows a1 = rows a0 /\ session a1 = ("id_" ++ f_table f, i) :: session a).
  { unfold a1, set_var. cbn [rows session]. now rewrite Hlast, Hsession. }
  destruct Ha1 as [Hrows1 Hsession1].
  set (b1 := MkStore (rows b) (links b) (next_id b) i
               (("id_" ++ f_table f, i) :: session b)).
  assert (Hupsert : forall a2, rows a2 = rows a0 -> extends a2 z ->
            set_var ("id_" ++ f_table f)
              (upsert (f_table f) n (fragment_cells f) b) = b1).
  { intros a2 Hr [Hz _]. rewrite (@upsert_found _ _ _ b i).
    - reflexivity.
    - rewrite Hbrows. apply Hz. now rewrite Hr. }
  assert (Hvars : forall v, In v (sets f ++ vars)%list ->
            var_get ("id_" ++ v) (session a1) = var_get ("id_" ++ v) (session b1)).
  { rewrite Hsession1. cbn [session b1]. now apply agree_cons. }
  unfold refs in Hrefs.
  destruct (f_parent f) as [p |].
  - destruct (var_get ("id_" ++ f_table f) (session a1)) as [c |] eqn:Ec;
      [| discriminate].
    destruct (var_get ("id_" ++ p) (session a1)) as [q |] eqn:Eq; [| discriminate].
    injection Hexec as <-.
    destruct (insert_ignore_spec (Link (f_table f ++ "_" ++ p) c q) a1)
      as (Hin & Hr & Hs & _).
    rewrite (Hupsert _ (eq_trans Hr Hrows1) (conj Hrows Hlinks)).
    rewrite <- (Hvars (f_table f)), Ec by (now left).
    rewrite <- (Hvars p), Eq.
    2:{ destruct (Hrefs p) as [H | H]; [now right; left | |].
        - apply in_or_app. now left.
        - apply in_or_app. now right. }
    rewrite insert_ignore_found.
    2:{ cbn [links b1]. rewrite Hblinks. now apply Hlinks. }
    exists b1. split; [reflexivity |].
    cbn [rows links b1]. repeat split; auto.
    unfold agree. intros v Hv.
    etransitivity; [apply (f_equal (var_get ("id_" ++ v))); exact Hs |].
    now apply Hvars.
  - injection Hexec as <-.
    rewrite (Hupsert a1 Hrows1 (conj Hrows Hlinks)).
    exists b1. split; [reflexivity |].
    cbn [rows links b1]. repeat split; auto.
Qed.

Lemma run_batch_again (l : list fragment) :
  forall vars a z b,
    run_batch l a = (z, None) ->
    ordered vars l ->
    rows b = rows z ->
    links b = links z ->
    agree vars a b ->
    exists b',
      run_batch l b = (b', None) /\ rows b' = rows z /\ links b' = links z.
Proof.
  induction l as [| f l IH]; intros vars a z b Hrun Hord Hrows Hlinks Hagree.
  - exists b. injection Hrun as <-. auto.
  - rewrite run_batch_cons in *. cbn [ordered] in Hord.
    destruct (exec_fragment f a) as [a1 [e |]] eqn:E; [discriminate |].
    destruct Hord as [Hf Hl].
    destruct (@exec_fragment_again f vars a a1 z b E
                (run_batch_extends l a1 Hrun) Hrows Hlinks Hagree Hf)
      as (b1 & Hb1 & Hr1 & Hl1 & Hagree1).
    rewrite Hb1.
    exact (IH _ a1 z b1 Hrun Hl Hr1 Hl1 Hagree1).
Qed.

(** A batch whose fragments read only variables set before, and whose rows
    all have a name, is accepted. *)
Lemma run_batch_accepted (l : list fragment) :
  forall vars a,
    ordered vars l ->
    forallb named l = true ->
    (forall v, In v vars -> var_get ("id_" ++ v) (session a) <> None) ->
    exists z, run_batch l a = (z, None).
Proof.
  induction l as [| f l IH]; intros vars a Hord Hnamed Hset.
  - now exists a.
  - rewrite run_batch_cons. cbn [ordered forallb] in *.
    destruct Hord as [Hf Hl].
    apply andb_prop in Hnamed. destruct Hnamed as [Hname Hnamed].
    assert (E : exists a1, exec_fragment f a = (a1, None)
                  /\ forall v, In v (sets f ++ vars)%list ->
                       var_get ("id_" ++ v) (session a1) <> None).
    { rewrite exec_fragment_eq. unfold named in Hname.
      destruct (fragment_name f) as [n |]; [| discriminate].
      destruct (upsert_spec (f_table f) n (fragment_cells f) a)
        as (i & _ & Hlast & Hsession & _ & _).
      cbv zeta.
      set (a1 := set_var ("id_" ++ f_table f)
                   (upsert (f_table f) n (fragment_cells f) a)).
      assert (Hs1 : session a1 = ("id_" ++ f_table f, i) :: session a).
      { unfold a1, set_var. cbn [session]. now rewrite Hlast, Hsession. }
      assert (Hvars : forall v, In v (sets f ++ vars)%list ->
                var_get ("id_" ++ v) (session a1) <> None).
      { intros v Hv. rewrite Hs1, var_get_id.
        destruct (String.eqb (f_table f) v) eqn:Ev; [discriminate |].
        destruct Hv as [Hv | Hv]; [| now apply Hset].
        subst v. now rewrite String.eqb_refl in Ev. }
      unfold refs in Hf.
      destruct (f_parent f) as [p |]; [| now exists a1].
      destruct (var_get ("id_" ++ f_table f) (session a1)) as [c |] eqn:Ec.
      2:{ exfalso. apply (Hvars (f_table f)); [now left | exact Ec]. }
      destruct (var_get ("id_" ++ p) (session a1)) as [q |] eqn:Eq.
      2:{ exfalso. apply (Hvars p); [| exact Eq].
          destruct (Hf p) as [H | H]; [now right; left | |];
            apply in_or_app; [now left | now right]. }
      eexists. split; [reflexivity |].
      intros v Hv.
      destruct (insert_ignore_spec (Link (f_table f ++ "_" ++ p) c q) a1)
        as (_ & _ & Hs & _).
      intros H. apply (Hvars v Hv). rewrite <- H.
      symmetry. apply (f_equal (var_get ("id_" ++ v))). exact Hs. }
    destruct E as (a1 & E & Hset1).
    rewrite E. exact (IH _ a1 Hl Hnamed Hset1).
Qed.

(** An instance with a name and nothing else, the name having neither quote
    nor backslash: the store reads the statement of [insert_all] as the
    statements of its one fragment, and the row has a name. *)
Lemma single_name_read (cls : EntityClass) (n : string) :
  Py.contains Py.quote n = false ->
  Py.contains Py.backslash n = false ->
  Sql.read (build_statement (Single (Entity cls [("name", AStr n)])))
  = Some (flat_map statements_of
            (plan_request (Single (Entity cls [("name", AStr n)]))))
  /\ forallb named (plan_request (Single (Entity cls [("name", AStr n)]))) = true.
Proof.
  intros Hq Hb. split; [| reflexivity].
  change (build_statement (Single (Entity cls [("name", AStr n)])))
    with (query_head (lower (class_name cls))
            (format_keys ["name"] [SStr n]) (format_values ["name"] [SStr n])).
  change (plan_request (Single (Entity cls [("name", AStr n)])))
    with [Fragment (lower (class_name cls)) ["name"] [SStr n] None].
  rewrite format_keys_single, format_values_single.
  cbn [flat_map]. rewrite app_nil_r.
  exact (@read_single_column cls None "name" n eq_refl Hq Hb).
Qed.

(** C2 (as the store has it): when the store reads the statement of the
    batch as the statements its fragments are made of, and every row has a
    name, [insert_all] on the store prints no error, and [insert_all] again
    on the tables the first run left (in the same session or in a new one)
    prints no error either and changes no table: no row and no association
    is added. *)
Theorem batch_twice (p : payload) (db : store) :
  Sql.read (build_statement p) = Some (flat_map statements_of (plan_request p)) ->
  forallb named (plan_request p) = true ->
  exists db1,
    insert_all submit p db = Outcome db1 [] (Ok tt)
    /\ forall db1',
         rows db1' = rows db1 ->
         links db1' = links db1 ->
         exists db2,
           insert_all submit p db1' = Outcome db2 [] (Ok tt)
           /\ rows db2 = rows db1
           /\ links db2 = links db1.
Proof.
  intros Hread Hnamed.
  assert (Hsubmit : forall d, submit (build_statement p) d = run_batch (plan_request p) d).
  { intros d. unfold submit, run_batch. now rewrite Hread. }
  destruct (@run_batch_accepted (plan_request p) [] db
              (plan_request_ordered p) Hnamed) as (db1 & H1).
  { intros v []. }
  exists db1. split.
  { unfold insert_all. now rewrite Hsubmit, H1. }
  intros db1' Hrows Hlinks.
  destruct (@run_batch_again (plan_request p) [] db db1 db1' H1
              (plan_request_ordered p) Hrows Hlinks) as (db2 & H2 & Hr & Hl).
  { intros v []. }
  exists db2. split; [| split; assumption].
  unfold insert_all. now rewrite Hsubmit, H2.
Qed.

Lemma batch_twice_witness :
  exists db1,
    insert_all submit (Single product_eau) empty_store = Outcome db1 [] (Ok tt)
    /\ forall db1',
         rows db1' = rows db1 ->
         links db1' = links db1 ->
         exists db2,
           insert_all submit (Single product_eau) db1' = Outcome db2 [] (Ok tt)
           /\ rows db2 = rows db1
           /\ links db2 = links db1.
Proof.
  exact (batch_twice (Single product_eau) empty_store eq_refl eq_refl).
Defined.

(** C2, the claim as written fails: the product that [clean_response] makes
    of an outline whose name holds a quote, with no nutriscore and no url,
    gives a statement that the store cannot read; the store refuses it at
    the first run and at the second, and [insert_all] prints the error each
    time. *)
Lemma quoted_batch_refused :
  clean_response (Some [outline_quoted]) [] = ([product_quoted], None)
  /\ build_statement (Many [product_quoted])
     = "INSERT INTO product   (name)   VALUES ('L'eau') ON DUPLICATE KEY UPDATE   id_product = LAST_INSERT_ID(id_product); SET @id_product = LAST_INSERT_ID() "
  /\ Sql.read (build_statement (Many [product_quoted])) = None
  /\ insert_all submit (Many [product_quoted]) empty_store
     = Outcome empty_store
         ["The error 'You have an error in your SQL syntax' occurred"] (Ok tt)
  /\ printed
       (insert_all submit (Many [product_quoted])
          (connection (insert_all submit (Many [product_quoted]) empty_store)))
     = ["The error 'You have an error in your SQL syntax' occurred"].
Proof.
  repeat split; vm_compute; reflexivity.
Qed.

(** * Further properties of the manager *)

(** ** [flatten_list] *)

(** X1: flattening a list in two parts, the second part with the atoms of
    the first as [components], is flattening the whole; atoms given as
    [components] come first and are kept as they are. *)
Theorem flatten_list_components (A : Type) (l1 l2 : list (nested A))
    (components : option (list A)) (c : list A) :
  flatten_list (l1 ++ l2) components
  = flatten_list l2 (Some (flatten_list l1 components))
  /\ flatten_list l1 (Some c) = (c ++ flatten_list l1 None)%list.
Proof.
  split.
  - rewrite !flatten_list_spec, flat_map_app, app_assoc. reflexivity.
  - rewrite !flatten_list_spec. reflexivity.
Qed.

(** X2: a list without nesting is left as it is, so that flattening twice
    is flattening once; and a level of nesting more around the whole list
    changes nothing. *)
Theorem flatten_list_flat (A : Type) (l : list A) (listing : list (nested A)) :
  flatten_list (map Atom l) None = l
  /\ flatten_list (map Atom (flatten_list listing None)) None
     = flatten_list listing None
  /\ flatten_list [Nest listing] None = flatten_list listing None.
Proof.
  assert (H : forall x : list A, flatten_list (map Atom x) None = x).
  { intros x. rewrite flatten_list_spec. cbn [app].
    induction x as [| a x IH]; simpl; [reflexivity | now rewrite IH]. }
  split; [apply H |].
  split; [apply H |].
  rewrite !flatten_list_spec. simpl. apply app_nil_r.
Qed.

(** ** The number and the order of the queries *)

Lemma entity_size_children (e : entity) :
  entity_size e = S (list_sum (map entity_size (children_of (get_items e)))).
Proof.
  destruct e as [cls items]. cbn [entity_size get_items]. f_equal.
  induction items as [| [k v] items IH]; simpl.
  - reflexivity.
  - rewrite map_app, list_sum_app, <- IH.
    destruct v; reflexivity.
Qed.

Lemma length_of_flat_map (A B : Type) (f : A -> list B) (l : list A) :
  length (flat_map f l) = list_sum (map (fun x => length (f x)) l).
Proof.
  induction l as [| x l IH]; simpl.
  - reflexivity.
  - now rewrite length_app, IH.
Qed.

Lemma builder_size (e : entity) :
  forall parent,
    length (flatten_list (create_query_insert_row e parent) None) = entity_size e.
Proof.
  induction e as [e IH] using entity_induction.
  intros parent.
  rewrite flatten_builder, length_app, length_of_flat_map, entity_size_children.
  simpl. rewrite Nat.add_1_r. f_equal. f_equal.
  apply map_ext_in. intros c Hc.
  rewrite Forall_forall in IH. now apply IH.
Qed.

(** X3: there is one query per instance: the builder gives as many queries
    as the tree of the entity has instances, and the request of [insert_all]
    as many as the trees of the payload together. *)
Theorem one_query_per_instance (e : entity) (parent : option entity) (p : payload) :
  length (flatten_list (create_query_insert_row e parent) None) = entity_size e
  /\ length (build_request p) = list_sum (map entity_size (instances_of p)).
Proof.
  split; [apply builder_size |].
  unfold build_request.
  rewrite length_rev, flatten_list_spec, build_queries_eq. cbn [app].
  rewrite length_of_flat_map, map_map. f_equal.
  apply map_ext. intros x.
  rewrite <- (builder_size x None), flatten_list_spec. reflexivity.
Qed.

(** X4: in the request the queries of an instance placed later in the
    payload come first: the request of two lists of instances put end to end
    is the request of the second followed by the request of the first. *)
Theorem request_of_append (l1 l2 : list entity) :
  build_request (Many (l1 ++ l2))
  = (build_request (Many l2) ++ build_request (Many l1))%list.
Proof.
  unfold build_request.
  rewrite !flatten_list_spec, !build_queries_eq. cbn [app instances_of].
  now rewrite map_app, flat_map_app, rev_app_distr.
Qed.

(** X5: once reversed, the queries of an entity start with its own query,
    followed by the reversed queries of its children, last child first; the
    request for a single instance has this form. *)
Theorem reversed_queries_start_with_own (e : entity) (parent : option entity) :
  rev (flatten_list (create_query_insert_row e parent) None)
  = own_query e parent
    :: flat_map
         (fun c => rev (flatten_list (create_query_insert_row c (Some e)) None))
         (rev (children_of (get_items e)))
  /\ build_request (Single e)
     = rev (flatten_list (create_query_insert_row e None) None).
Proof.
  split.
  - rewrite flatten_builder, rev_app_distr. simpl. f_equal.
    apply rev_flat_map.
  - unfold build_request.
    rewrite !flatten_list_spec. simpl. now rewrite app_nil_r.
Qed.

(** ** What the builder looks at *)

Lemma builder_parent_class (e q q' : entity) :
  get_class q = get_class q' ->
  create_query_insert_row e (Some q) = create_query_insert_row e (Some q').
Proof.
  intros H. rewrite !create_query_insert_row_eq.
  unfold own_query, own_fragment, table_name. simpl. now rewrite H.
Qed.

(** X6: of its parent the builder uses the class and nothing else: two
    parents of the same class give the same queries. *)
Theorem parent_by_class_only (e q q' : entity) :
  get_class q = get_class q' ->
  create_query_insert_row e (Some q) = create_query_insert_row e (Some q')
  /\ flatten_list (create_query_insert_row e (Some q)) None
     = flatten_list (create_query_insert_row e (Some q')) None.
Proof.
  intros H. rewrite (builder_parent_class e q q' H). now split.
Qed.

Lemma parent_by_class_only_witness :
  create_query_insert_row category_A (Some product_eau)
  = create_query_insert_row category_A (Some (Entity Product []))
  /\ flatten_list (create_query_insert_row category_A (Some product_eau)) None
     = flatten_list (create_query_insert_row category_A (Some (Entity Product []))) None.
Proof.
  exact (parent_by_class_only category_A product_eau (Entity Product []) eq_refl).
Defined.

Lemma children_of_without_none (items : list (string * attr)) :
  children_of (without_none items) = children_of items.
Proof.
  induction items as [| [k v] items IH]; simpl.
  - reflexivity.
  - destruct v; simpl; now rewrite IH.
Qed.

Lemma row_of_without_none (items : list (string * attr)) :
  row_of (without_none items) = row_of items.
Proof.
  induction items as [| [k v] items IH]; simpl.
  - reflexivity.
  - destruct v; simpl; now rewrite IH.
Qed.

(** X7: an attribute that is [None] is passed over: the entity without its
    [None] attributes gives the same queries, whatever the parent. *)
Theorem none_attributes_skipped (cls : EntityClass) (items : list (string * attr))
    (parent : option entity) :
  create_query_insert_row (Entity cls items) parent
  = create_query_insert_row (Entity cls (without_none items)) parent.
Proof.
  rewrite !create_query_insert_row_eq.
  unfold own_query, own_fragment, table_name. cbn [get_items get_class].
  rewrite children_of_without_none, row_of_without_none.
  f_equal. apply map_ext. intros c. f_equal.
  now apply builder_parent_class.
Qed.

(** ** The columns of the query *)

Lemma contains_remove (c : ascii) (s : string) :
  Py.contains c (Py.remove c s) = false.
Proof.
  induction s as [| d s IH]; simpl.
  - reflexivity.
  - destruct (Ascii.eqb d c) eqn:E; simpl; [exact IH |].
    now rewrite E, IH.
Qed.

(** X8: the column list of a query never holds a single quote, whatever the
    keys and however many they are. *)
Theorem column_list_without_quote (row_keys : list string) (row_values : list scalar) :
  Py.contains Py.quote (format_keys row_keys row_values) = false.
Proof.
  unfold format_keys.
  destruct (Nat.eqb (Py.or_int (length row_keys) (length row_values)) 1);
    apply contains_remove.
Qed.

(** X9: an entity none of whose attributes is a plain value gets a query
    with an empty column list and an empty value list, [()] and [()]. *)
Theorem no_column_query (e : entity) (parent : option entity) :
  row_of (get_items e) = [] ->
  own_query e parent
  = match parent with
    | Some q =>
        query_head (table_name e) "()" "()"
        ++ query_tail (table_name e) (table_name q)
    | None => query_head (table_name e) "()" "()"
    end.
Proof.
  intros H.
  unfold own_query, own_fragment, fragment_text, format_query. simpl.
  rewrite H. destruct parent; reflexivity.
Qed.

Lemma no_column_query_witness :
  own_query (Entity Product [("url", ANone); ("category", AList [category_A])]) None
  = "INSERT INTO product   ()   VALUES () ON DUPLICATE KEY UPDATE   id_product = LAST_INSERT_ID(id_product); SET @id_product = LAST_INSERT_ID() ".
Proof.
  exact (no_column_query
           (Entity Product [("url", ANone); ("category", AList [category_A])])
           None eq_refl).
Defined.

(** ** The factory, further *)

Lemma create_instance_unknown (kind : string) (attributes : dict) :
  register_get kind class_register = None ->
  create_instance kind attributes = Raise KeyError.
Proof.
  intros H. unfold create_instance.
  now rewrite attribute_loop_spec, H.
Qed.

(** X10: for a kind that is not in the register the factory raises
    [KeyError], whatever the attributes, and so gives no instance. *)
Theorem unknown_kind_raises (kind : string) (attributes : dict) :
  register_get kind class_register = None ->
  create_instance kind attributes = Raise KeyError
  /\ forall e, create_instance kind attributes <> Ok e.
Proof.
  intros H. rewrite (create_instance_unknown kind attributes H).
  split; [reflexivity | discriminate].
Qed.

Lemma unknown_kind_raises_witness :
  create_instance "brand" raw_product = Raise KeyError
  /\ forall e, create_instance "brand" raw_product <> Ok e.
Proof.
  exact (unknown_kind_raises "brand" raw_product eq_refl).
Defined.

Lemma fold_resolve_resolved (items : list (string * attr)) :
  forall attributes,
    resolved items = true -> fold_left resolve items attributes = attributes.
Proof.
  induction items as [| [k v] items IH]; intros attributes H.
  - reflexivity.
  - unfold resolved in H. cbn [forallb fst snd] in H.
    apply andb_prop in H. destruct H as [Hkv H].
    cbn [fold_left]. rewrite IH by exact H.
    unfold resolve. cbn [fst snd].
    destruct (register_get k class_register); [| reflexivity].
    destruct v; try reflexivity. discriminate.
Qed.

Lemma create_instance_resolved (kind : string) (cls : EntityClass)
    (attributes : dict) :
  register_get kind class_register = Some cls ->
  resolved attributes = true ->
  create_instance kind attributes = Ok (Entity cls attributes).
Proof.
  intros Hkind H. unfold create_instance, new_instance.
  now rewrite attribute_loop_spec, Hkind, fold_resolve_resolved.
Qed.

(** X11: when no attribute under the key of a child kind is a string, the
    factory builds the instance from the attributes as they are: a list of
    instances given as such is taken without a look at the names. *)
Theorem resolved_attributes_kept (kind : string) (cls : EntityClass)
    (attributes : dict) :
  register_get kind class_register = Some cls ->
  resolved attributes = true ->
  create_instance kind attributes = Ok (Entity cls attributes).
Proof.
  apply create_instance_resolved.
Qed.

Lemma resolved_attributes_kept_witness :
  create_instance "product"
    [("name", AStr "eau");
     ("category", AList [Entity Category [("name", AStr "l'eau")]])]
  = Ok (Entity Product
          [("name", AStr "eau");
           ("category", AList [Entity Category [("name", AStr "l'eau")]])]).
Proof.
  exact (resolved_attributes_kept "product"
           [("name", AStr "eau");
            ("category", AList [Entity Category [("name", AStr "l'eau")]])]
           eq_refl eq_refl).
Defined.

Lemma resolved_expand (attributes : dict) : resolved (map expand attributes) = true.
Proof.
  induction attributes as [| [k v] attributes IH].
  - reflexivity.
  - unfold resolved in *. cbn [map forallb]. rewrite IH, andb_true_r.
    unfold expand. cbn [fst snd].
    destruct (register_get k class_register) eqn:E.
    + destruct v; cbn [fst snd]; rewrite E; reflexivity.
    + cbn [fst snd]. now rewrite E.
Qed.

(** X12: the factory applied to the attributes of an instance it has built
    gives that instance again. *)
Theorem create_instance_again (kind : string) (attributes : dict) (e : entity) :
  distinct_keys attributes = true ->
  create_instance kind attributes = Ok e ->
  create_instance kind (get_items e) = Ok e.
Proof.
  intros Hdistinct H.
  apply distinct_keys_NoDup in Hdistinct.
  destruct (register_get kind class_register) as [cls |] eqn:Hkind.
  - rewrite (create_instance_spec kind attributes Hkind Hdistinct) in H.
    injection H as <-. cbn [get_items].
    apply create_instance_resolved; [exact Hkind | apply resolved_expand].
  - rewrite (create_instance_unknown kind attributes Hkind) in H. discriminate.
Qed.

Lemma create_instance_again_witness :
  create_instance "product"
    (get_items
       (Entity Product
          [("name", AStr EmptyString); ("nutriscore", AInt 3); ("url", ANone);
           ("category", AList [category_A; category_B; category_C]);
           ("store", AList [store_S])]))
  = Ok (Entity Product
          [("name", AStr EmptyString); ("nutriscore", AInt 3); ("url", ANone);
           ("category", AList [category_A; category_B; category_C]);
           ("store", AList [store_S])]).
Proof.
  exact (create_instance_again "product" raw_product eq_refl eq_refl).
Defined.

(** ** The row reader, further *)

(** X13: when the query is refused [select_row] prints the error and gives
    [None], the value it gives when there is no record. *)
Theorem select_row_on_error (conn : Type)
    (execute_fetchall : string -> conn -> conn * (string + list (list attr)))
    (table_anchor : string) (selection : columns) (distinct : bool)
    (claims : clauses) (db db' : conn) (e : string) :
  execute_fetchall (select_statement table_anchor selection distinct claims) db
  = (db', inl e) ->
  select_row execute_fetchall table_anchor selection distinct claims db
  = Outcome db' ["The error '" ++ e ++ "' occurred"] (Ok None).
Proof.
  intros H. unfold select_row. now rewrite H.
Qed.

Lemma select_row_on_error_witness :
  select_row failing_query "category" (Names ["name"]) true
    (Clauses None None None) tt
  = Outcome tt ["The error 'Lost connection' occurred"] (Ok None).
Proof.
  exact (select_row_on_error failing_query "category" (Names ["name"]) true
           (Clauses None None None) tt eq_refl).
Defined.

(** X14: for a table that is not the name of a kind of the register,
    [select_row] raises [KeyError] as soon as the query yields a record; the
    exception is not caught. *)
Theorem select_row_unknown_table (conn : Type)
    (execute_fetchall : string -> conn -> conn * (string + list (list attr)))
    (table_anchor : string) (selection : columns) (distinct : bool)
    (claims : clauses) (db db' : conn) (record : list attr)
    (others : list (list attr)) :
  register_get table_anchor class_register = None ->
  execute_fetchall (select_statement table_anchor selection distinct claims) db
  = (db', inr (record :: others)) ->
  select_row execute_fetchall table_anchor selection distinct claims db
  = Outcome db' [] (Raise KeyError).
Proof.
  intros Htable H. unfold select_row.
  now rewrite H, (create_instance_unknown _ _ Htable).
Qed.

Lemma select_row_unknown_table_witness :
  select_row two_records "category_product" (Names ["id_category"]) true
    (Clauses None None None) tt
  = Outcome tt [] (Raise KeyError).
Proof.
  exact (select_row_unknown_table two_records "category_product"
           (Names ["id_category"]) true (Clauses None None None) tt
           eq_refl eq_refl).
Defined.

(** ** The API manager *)

(** X15: without a url [APIManager] cannot be built, [constant] having no
    name [OFF_URL]: [AttributeError], whatever the other arguments; with a
    url the page size defaults to 20, the page number to 1, and there is no
    product yet. *)
Theorem api_init_url (page_size page_number : option Z) (u : string) :
  api_init None page_size page_number = Raise AttributeError
  /\ api_init (Some u) None None = Ok (ApiManager (CStr u) 20 1 [])
  /\ exists size number,
       api_init (Some u) page_size page_number
       = Ok (ApiManager (CStr u) size number []).
Proof.
  split; [reflexivity |].
  split; [reflexivity |].
  unfold api_init. eauto.
Qed.

(** X16: [get_load] raises [AttributeError] at its first statement,
    [constant] having no name [API_PARAMETERS]: no request is sent (the
    network is left as it was) and the products of the manager are left as
    they were. *)
Theorem get_load_raises (net : Type)
    (requests_get : constant_value -> list (string * constant_value) -> net
                    -> net * option (list dict))
    (m : api_manager) (n : net) :
  get_load requests_get m n = (api_products m, n, Some AttributeError).
Proof.
  reflexivity.
Qed.

Lemma parameters_update_twice (k : string) (v v' : constant_value)
    (d : list (string * constant_value)) :
  parameters_update k v' (parameters_update k v d) = parameters_update k v' d.
Proof.
  induction d as [| [k' w] d IH]; simpl.
  - now rewrite String.eqb_refl.
  - destruct (String.eqb k' k) eqn:E; simpl; rewrite E; [reflexivity |].
    now rewrite IH.
Qed.

Lemma page_loop_parameters (net : Type)
    (requests_get : constant_value -> list (string * constant_value) -> net
                    -> net * option (list dict))
    (pages : list Z) (url : constant_value) (page : Z)
    (parameters : list (string * constant_value)) :
  forall products n,
    page_loop requests_get pages url
      (parameters_update "page_number" (CInt page) parameters) products n
    = page_loop requests_get pages url parameters products n.
Proof.
  induction pages as [| q pages IH]; intros products n.
  - reflexivity.
  - cbn [page_loop]. rewrite parameters_update_twice. reflexivity.
Qed.

(** X17: the loop of [get_load] over the pages goes page after page: the
    pages of a second list are fetched after those of a first, from the
    products and the network the first left, unless a page of the first
    raised; the page number written in the parameters for a page does not
    reach the pages after it. *)
Theorem page_loop_append (net : Type)
    (requests_get : constant_value -> list (string * constant_value) -> net
                    -> net * option (list dict))
    (pages1 pages2 : list Z) (url : constant_value)
    (parameters : list (string * constant_value)) (products : list entity)
    (n : net) :
  page_loop requests_get (pages1 ++ pages2) url parameters products n
  = match page_loop requests_get pages1 url parameters products n with
    | (products', n', None) =>
        page_loop requests_get pages2 url parameters products' n'
    | (products', n', Some e) => (products', n', Some e)
    end.
Proof.
  revert parameters products n.
  induction pages1 as [| page pages1 IH]; intros parameters products n.
  - reflexivity.
  - cbn [app page_loop].
    destruct (requests_get url
                (parameters_update "page_number" (CInt page) parameters) n)
      as [n' answer].
    destruct (clean_response answer products) as [products' [e |]].
    + reflexivity.
    + rewrite IH.
      rewrite (page_loop_parameters requests_get pages1).
      destruct (page_loop requests_get pages1 url parameters products' n')
        as [[products'' n''] [e |]]; [reflexivity |].
      apply page_loop_parameters.
Qed.

(** ** [clean_response] *)

Lemma try_outline_spec (outline : dict) :
  try_outline outline
  = match dict_get "product_name_fr" outline,
          dict_get "nutriscore_score" outline,
          dict_get "url" outline,
          dict_get "categories" outline,
          dict_get "stores" outline with
    | Some name, Some nutriscore, Some url, Some categories, Some stores =>
        Ok (Entity Product
              (map expand
                 [("name", name); ("nutriscore", nutriscore); ("url", url);
                  ("category", categories); ("store", stores)]))
    | _, _, _, _, _ => Raise KeyError
    end.
Proof.
  unfold try_outline, outline_get.
  destruct (dict_get "product_name_fr" outline) as [name |]; [| reflexivity].
  destruct (dict_get "nutriscore_score" outline) as [nutriscore |]; [| reflexivity].
  destruct (dict_get "url" outline) as [url |]; [| reflexivity].
  destruct (dict_get "categories" outline) as [categories |]; [| reflexivity].
  destruct (dict_get "stores" outline) as [stores |]; [| reflexivity].
  rewrite (@create_instance_spec "product" Product
             [("name", name); ("nutriscore", nutriscore); ("url", url);
              ("category", categories); ("store", stores)] eq_refl).
  - reflexivity.
  - apply distinct_keys_NoDup. reflexivity.
Qed.

Lemma clean_response_step (outline : dict) (rest : list dict)
    (products : list entity) :
  has_language outline = true ->
  clean_response_loop (outline :: rest) products
  = clean_response_loop rest (products ++ expected_product outline)%list.
Proof.
  unfold has_language, expected_product. intros H.
  cbn [clean_response_loop]. unfold outline_get at 1.
  destruct (dict_get "categories_lc" outline) as [lc |]; [| discriminate].
  destruct (attr_eq_str lc "fr"); [| now rewrite app_nil_r].
  rewrite try_outline_spec.
  destruct (dict_get "product_name_fr" outline); [| now rewrite app_nil_r].
  destruct (dict_get "nutriscore_score" outline); [| now rewrite app_nil_r].
  destruct (dict_get "url" outline); [| now rewrite app_nil_r].
  destruct (dict_get "categories" outline); [| now rewrite app_nil_r].
  destruct (dict_get "stores" outline); [| now rewrite app_nil_r].
  reflexivity.
Qed.

Lemma clean_response_loop_spec (outlines : list dict) :
  forall products,
    clean_response_loop outlines products
    = ((products ++ flat_map expected_product (before_failure outlines))%list,
       if forallb has_language outlines then None else Some KeyError).
Proof.
  induction outlines as [| outline outlines IH]; intros products.
  - simpl. now rewrite app_nil_r.
  - cbn [before_failure forallb flat_map].
    destruct (has_language outline) eqn:E.
    + rewrite (clean_response_step outline outlines products E), IH.
      now rewrite <- app_assoc.
    + cbn [clean_response_loop flat_map]. unfold outline_get.
      unfold has_language in E.
      destruct (dict_get "categories_lc" outline); [discriminate |].
      now rewrite app_nil_r.
Qed.

Lemma before_failure_all (outlines : list dict) :
  forallb has_language outlines = true -> before_failure outlines = outlines.
Proof.
  induction outlines as [| outline outlines IH]; simpl; intros H.
  - reflexivity.
  - apply andb_prop in H. destruct H as [H1 H2].
    now rewrite H1, IH.
Qed.

(** X18: on a page where every outline has the key of the language,
    [clean_response] raises nothing and adds to the products, in the order
    of the page, one product for each outline that is in French and has the
    five keys; an outline in another language or short of a key is passed
    over; the values under the keys play no part in the choice. *)
Theorem clean_response_keeps (outlines : list dict) (products : list entity) :
  forallb has_language outlines = true ->
  clean_response (Some outlines) products
  = ((products ++ flat_map expected_product outlines)%list, None).
Proof.
  intros H. cbn [clean_response].
  now rewrite clean_response_loop_spec, H, before_failure_all.
Qed.

Lemma clean_response_keeps_witness :
  clean_response
    (Some [outline_eau; outline_english; outline_no_store; outline_empty_name])
    [store_S]
  = ([store_S;
      Entity Product
        [("name", AStr "eau"); ("nutriscore", AInt 3); ("url", AStr "u");
         ("category", AList [category_A; category_B]);
         ("store", AList [store_S])];
      Entity Product
        [("name", AStr EmptyString); ("nutriscore", ANone);
         ("url", AStr EmptyString); ("category", AList []);
         ("store", AList [])]],
     None).
Proof.
  exact (clean_response_keeps
           [outline_eau; outline_english; outline_no_store; outline_empty_name]
           [store_S] eq_refl).
Defined.

(** X19: an outline without the key of the language makes
    [clean_response] raise [KeyError]: the outlines after it are not read,
    and the products of the outlines before it stay in the list.  A body
    without the key of the products raises [KeyError] too. *)
Theorem clean_response_raises (before after : list dict) (outline : dict)
    (products : list entity) :
  forallb has_language before = true ->
  has_language outline = false ->
  clean_response (Some (before ++ outline :: after)%list) products
  = ((products ++ flat_map expected_product before)%list, Some KeyError)
  /\ clean_response None products = (products, Some KeyError).
Proof.
  intros Hbefore Houtline. split; [| reflexivity].
  cbn [clean_response]. rewrite clean_response_loop_spec.
  f_equal.
  - f_equal. f_equal.
    induction before as [| o before IH]; cbn [app before_failure].
    + now rewrite Houtline.
    + cbn [forallb] in Hbefore. apply andb_prop in Hbefore.
      destruct Hbefore as [H1 H2]. now rewrite H1, IH.
  - rewrite forallb_app. cbn [forallb].
    now rewrite Houtline, andb_false_r.
Qed.

Lemma clean_response_raises_witness :
  clean_response
    (Some ([outline_eau] ++ outline_no_language :: [outline_eau])%list) []
  = ([Entity Product
        [("name", AStr "eau"); ("nutriscore", AInt 3); ("url", AStr "u");
         ("category", AList [category_A; category_B]);
         ("store", AList [store_S])]],
     Some KeyError)
  /\ clean_response None [] = ([], Some KeyError).
Proof.
  exact (clean_response_raises [outline_eau] [outline_eau] outline_no_language []
           eq_refl eq_refl).
Defined.

(** X20: the test on empty values of [clean_response] discards nothing: an
    outline in French with the five keys always gives a product, which
    holds under its name what the outline holds, be it the empty string or
    [None]. *)
Theorem empty_values_kept (outline : dict) (products : list entity)
    (name nutriscore url categories stores : attr) :
  dict_get "categories_lc" outline = Some (AStr "fr") ->
  dict_get "product_name_fr" outline = Some name ->
  dict_get "nutriscore_score" outline = Some nutriscore ->
  dict_get "url" outline = Some url ->
  dict_get "categories" outline = Some categories ->
  dict_get "stores" outline = Some stores ->
  exists product,
    try_outline outline = Ok product
    /\ clean_response (Some [outline]) products = ((products ++ [product])%list, None)
    /\ get_class product = Product
    /\ getattr product "name" = Some name.
Proof.
  intros Hlc Hname Hnutriscore Hurl Hcategories Hstores.
  eexists. split; [| split; [| split]].
  - rewrite try_outline_spec, Hname, Hnutriscore, Hurl, Hcategories, Hstores.
    reflexivity.
  - assert (H : has_language outline = true)
      by (unfold has_language; now rewrite Hlc).
    cbn [clean_response].
    rewrite (clean_response_step outline [] products H).
    cbn [clean_response_loop]. unfold expected_product.
    rewrite Hlc.
    change (attr_eq_str (AStr "fr") "fr") with true. cbv iota.
    rewrite Hname, Hnutriscore, Hurl, Hcategories, Hstores.
    reflexivity.
  - reflexivity.
  - reflexivity.
Qed.

Lemma empty_values_kept_witness :
  exists product,
    try_outline outline_empty_name = Ok product
    /\ clean_response (Some [outline_empty_name]) [] = (([] ++ [product])%list, None)
    /\ get_class product = Product
    /\ getattr product "name" = Some (AStr EmptyString).
Proof.
  exact (@empty_values_kept outline_empty_name [] (AStr EmptyString) ANone
           (AStr EmptyString) (AStr EmptyString) (AStr EmptyString)
           eq_refl eq_refl eq_refl eq_refl eq_refl eq_refl).
Defined.

(** ** From a page to the request *)

Lemma forallb_flat_map (A B : Type) (f : B -> bool) (g : A -> list B) (l : list A) :
  Forall (fun x => forallb f (g x) = true) l ->
  forallb f (flat_map g l) = true.
Proof.
  induction 1 as [| x l Hx _ IH]; simpl.
  - reflexivity.
  - now rewrite forallb_app, Hx, IH.
Qed.

Lemma dict_get_forallb (f : attr -> bool) (k : string) (v : attr) (d : dict) :
  forallb (fun kv => f (snd kv)) d = true ->
  dict_get k d = Some v ->
  f v = true.
Proof.
  induction d as [| [k' v'] d IH]; simpl; intros H Hget.
  - discriminate.
  - apply andb_prop in H. destruct H as [H1 H2].
    destruct (String.eqb k' k).
    + now injection Hget as <-.
    + now apply IH.
Qed.

Lemma children_of_expand (attributes : dict) :
  forallb (fun kv => plain (snd kv)) attributes = true ->
  Forall (fun c => exists cls n, c = Entity cls [("name", AStr n)])
    (children_of (map expand attributes)).
Proof.
  induction attributes as [| [k v] attributes IH]; intros H.
  - constructor.
  - cbn [forallb snd] in H. apply andb_prop in H. destruct H as [Hv H].
    cbn [map children_of flat_map]. apply Forall_app. split; [| now apply IH].
    unfold expand. cbn [fst snd].
    destruct (register_get k class_register) as [cls |].
    + destruct v as [| s | z | l]; cbn [snd]; try constructor; [| discriminate].
      apply Forall_forall. intros c Hc.
      apply in_expected_children in Hc.
      destruct Hc as (token & _ & -> & _). eauto.
    + cbn [snd]. destruct v; try constructor. discriminate.
Qed.

Lemma product_request_named (name : string) (rest : dict) :
  forallb (fun kv => plain (snd kv)) rest = true ->
  forallb named
    (entity_request (Entity Product (map expand (("name", AStr name) :: rest))) None)
  = true.
Proof.
  intros H. rewrite entity_request_eq. cbn [forallb].
  apply andb_true_intro. split.
  - reflexivity.
  - apply forallb_flat_map, Forall_rev.
    change (map expand (("name", AStr name) :: rest))
      with (("name", AStr name) :: map expand rest).
    cbn [get_items children_of flat_map snd app].
    eapply Forall_impl; [| exact (children_of_expand rest H)].
    intros c (cls & n & ->). reflexivity.
Qed.

Lemma expected_product_named (outline : dict) :
  well_named outline = true ->
  Forall (fun e => forallb named (entity_request e None) = true)
    (expected_product outline).
Proof.
  unfold well_named, expected_product. intros H.
  apply andb_prop in H. destruct H as [Hplain Hname].
  destruct (dict_get "categories_lc" outline) as [lc |]; [| constructor].
  destruct (attr_eq_str lc "fr"); [| constructor].
  destruct (dict_get "product_name_fr" outline) as [name |]; [| constructor].
  destruct (dict_get "nutriscore_score" outline) as [nutriscore |] eqn:E1;
    [| constructor].
  destruct (dict_get "url" outline) as [url |] eqn:E2; [| constructor].
  destruct (dict_get "categories" outline) as [categories |] eqn:E3;
    [| constructor].
  destruct (dict_get "stores" outline) as [stores |] eqn:E4; [| constructor].
  constructor; [| constructor].
  destruct name as [| name | z | l]; try discriminate.
  apply product_request_named. cbn [forallb snd].
  rewrite (dict_get_forallb plain _ outline Hplain E1).
  rewrite (dict_get_forallb plain _ outline Hplain E2).
  rewrite (dict_get_forallb plain _ outline Hplain E3).
  rewrite (dict_get_forallb plain _ outline Hplain E4).
  reflexivity.
Qed.

Lemma before_failure_incl (outlines : list dict) :
  incl (before_failure outlines) outlines.
Proof.
  induction outlines as [| outline outlines IH]; simpl.
  - apply incl_refl.
  - destruct (has_language outline).
    + apply incl_cons; [now left | now apply incl_tl].
    + intros x [].
Qed.

(** X21: the products that [clean_response] draws from a page, whether the
    page is read to its end or not, give [insert_all] a request in which
    every query has a column for the name, as long as the values of the page
    are strings, integers or [None] and the names of the products are
    strings. *)
Theorem cleaned_page_named (outlines : list dict) :
  forallb well_named outlines = true ->
  forallb named (plan_request (Many (fst (clean_response (Some outlines) []))))
  = true.
Proof.
  intros H. cbn [clean_response].
  rewrite clean_response_loop_spec. cbn [fst app].
  rewrite plan_request_eq. cbn [instances_of].
  apply forallb_flat_map, Forall_rev.
  apply Forall_flat_map.
  rewrite forallb_forall in H.
  apply Forall_forall. intros outline Hin.
  apply expected_product_named, H.
  now apply before_failure_incl.
Qed.

Lemma cleaned_page_named_witness :
  forallb named
    (plan_request
       (Many (fst (clean_response
                     (Some [outline_eau; outline_english; outline_no_store]) []))))
  = true.
Proof.
  exact (cleaned_page_named [outline_eau; outline_english; outline_no_store]
           eq_refl).
Defined.
